(** * fenics_mpm: the material point method driver [Model]

    A shallow embedding of [fenics_mpm/model.py].  The class [Model] is
    orchestration code: every numerical stage is delegated to the compiled
    engine [mpm_module.MPMModel] (held in [self.mpm_cpp]) and the results are
    copied back into the Python-side [GridModel] and [Material] objects.

    The embedding keeps that structure:
    - the engine is an interface ([Engine]); the driver is written once, for
      any engine;
    - the driver's methods are computations in a small monad that threads the
      [Model] object, may raise a Python exception, and logs what the method
      does to the outside (banners, engine calls, grid accesses, files);
    - the [while] loop of [Model.mpm] is a fixpoint on fuel.

    Numbers are exact rationals ([Q]): this is what the code computes when it
    is given [int] or [fractions.Fraction] times, and it is the idealisation
    of the floating-point case.

    [add_material] and [color] take no part in [mpm] and are not embedded: a
    model comes with its materials attached.  The wall-clock readings
    ([time()]) that only feed the printed CPU times are left out. *)

From Stdlib Require Import List String ZArith QArith Qround Lia Lqa Bool Arith.
Import ListNotations.
Local Close Scope Q_scope.
Local Open Scope string_scope.
Local Open Scope list_scope.

(* ================================================================== *)
(** ** The engine interface                                             *)
(* ================================================================== *)

(** The methods of [self.mpm_cpp] that take no argument and return nothing.
    [Model] calls every one of them except the last, which the engine's
    transfer component offers but [model.py] never invokes. *)
Inductive CppCall : Set :=
| formulate_material_basis_functions_cpp
| interpolate_material_mass_to_grid_cpp
| interpolate_material_velocity_to_grid_cpp
| calculate_grid_volume_cpp
| calculate_material_density_cpp
| calculate_material_initial_volume_cpp
| calculate_material_velocity_gradient_cpp
| interpolate_grid_velocity_to_material_cpp
| initialize_material_tensors_cpp
| update_material_volume_cpp
| update_material_deformation_gradient_cpp
| update_material_stress_cpp
| calculate_grid_internal_forces_cpp
| update_grid_velocity_cpp
| calculate_grid_acceleration_cpp
| advect_material_particles_cpp
| interpolate_grid_acceleration_to_material_cpp.

Definition CppCall_eq_dec (c d : CppCall) : {c = d} + {c <> d}.
Proof. decide equality. Defined.

Definition CppCall_eqb (c d : CppCall) : bool :=
  if CppCall_eq_dec c d then true else false.

(** The nodal vector fields of the engine, read component by component:
    [get_U3(k)], [get_a3(k)], [get_f_int(k)]. *)
Inductive GridVec : Set := U3 | a3 | f_int.

(** Per-particle getters of a [cpp_mat]: [get_phi(i)], [get_grad_phi(i)], ... *)
Inductive Row : Set :=
| get_phi | get_grad_phi | get_grad_u | get_u_star | get_a | get_dF | get_F
| get_epsilon | get_sigma | get_u | get_x.

(** Whole-array getters of a [cpp_mat]: [get_rho()], [get_V()], [get_V0()]. *)
Inductive Column : Set := get_rho | get_V | get_V0.

(** The attributes of a Python-side [Material] that [Model] assigns: [M.vrt],
    the matrices [M.phi], [M.grad_u], ... ([M_row get_phi], ...) and the
    vectors [M.rho], [M.V], [M.V0] ([M_col get_rho], ...), each named here by
    the getter that normally feeds it. *)
Inductive Attr : Set :=
| M_vrt | M_row (r : Row) | M_col (c : Column).

Definition Attr_eq_dec (k l : Attr) : {k = l} + {k <> l}.
Proof. repeat decide equality. Defined.

(** Python exceptions that can leave a method of [Model]. *)
Inductive exn : Set :=
| IndexError
| AttributeError
| CppError (what : string).

(** An engine call either completes or throws; both leave an engine state. *)
Inductive cpp_result (S : Type) : Type :=
| cpp_ok (s : S)
| cpp_throw (e : exn) (s : S).
Arguments cpp_ok {S} s.
Arguments cpp_throw {S} e s.

(** [mpm_module.MPMModel] as [Model] uses it.  A material is named by its
    position in the engine's list (the order of [add_material]). *)
Record Engine : Type := {
  cpp_state : Type;
  MPMModel : nat -> list Z -> list Z -> Q -> cpp_state;
  set_h : list Q -> cpp_state -> cpp_state;
  cpp_call : CppCall -> cpp_state -> cpp_result cpp_state;
  get_m : cpp_state -> list Q;
  get_vec : GridVec -> nat -> cpp_state -> list Q;
  get_num_particles : nat -> cpp_state -> nat;
  get_vrt : nat -> cpp_state -> nat -> list Z;
  get_row : Row -> nat -> cpp_state -> nat -> list Q;
  get_column : Column -> nat -> cpp_state -> list Q
}.

(* ================================================================== *)
(** ** Python-side objects                                              *)
(* ================================================================== *)

(** A numpy array as [Model] builds them: the whole-array getters give a
    vector, the per-particle getters a matrix with one row per particle. *)
Inductive ndarray : Type :=
| array1 (l : list Q)
| array2 (l : list (list Q))
| arrayZ (l : list (list Z)).

(** [arr[i]]: [None] stands for numpy's [IndexError]. *)
Definition getitem (arr : ndarray) (i : nat) : option ndarray :=
  match arr with
  | array1 l => option_map (fun q => array1 [q]) (nth_error l i)
  | array2 l => option_map array1 (nth_error l i)
  | arrayZ l => option_map (fun r => arrayZ [r]) (nth_error l i)
  end.

(** An instance dictionary: attribute names in the order of their first
    assignment, a later assignment replacing the value in place. *)
Definition dict : Type := list (Attr * ndarray).

Fixpoint dict_get (k : Attr) (d : dict) : option ndarray :=
  match d with
  | [] => None
  | (k', v) :: d' => if Attr_eq_dec k k' then Some v else dict_get k d'
  end.

Fixpoint dict_set (k : Attr) (v : ndarray) (d : dict) : dict :=
  match d with
  | [] => [(k, v)]
  | (k', v') :: d' =>
      if Attr_eq_dec k k' then (k, v) :: d' else (k', v') :: dict_set k v d'
  end.

(** A [material.Material]: the handle of its engine twin and its attributes. *)
Record Material : Type := {
  cpp_mat : nat;
  attrs : dict
}.

Definition getattr (M : Material) (k : Attr) : option ndarray :=
  dict_get k (attrs M).

Definition setattr (M : Material) (k : Attr) (v : ndarray) : Material :=
  {| cpp_mat := cpp_mat M; attrs := dict_set k v (attrs M) |}.

(** Modelled from the spec: [gridmodel.GridModel] is not in the source tree.
    The spec's Grid "exposes settable/gettable nodal scalar and vector fields
    (mass, velocity, acceleration, internal force) and a per-node
    characteristic cell size"; [gm_Q] and [gm_dofs] stand for the function
    space and its dof map, which the driver only passes on. *)
Record GridModel : Type := {
  gm_Q : nat;
  gm_dofs : list Z;
  gm_h : list Q;
  gm_m : list Q;
  gm_u : list Q;
  gm_v : list Q;
  gm_a3 : list (list Q);
  gm_f_int : list (list Q)
}.

Definition update_mass (m : list Q) (g : GridModel) : GridModel :=
  {| gm_Q := gm_Q g; gm_dofs := gm_dofs g; gm_h := gm_h g; gm_m := m;
     gm_u := gm_u g; gm_v := gm_v g; gm_a3 := gm_a3 g;
     gm_f_int := gm_f_int g |}.

Definition assu (uu : list Q) (g : GridModel) : GridModel :=
  {| gm_Q := gm_Q g; gm_dofs := gm_dofs g; gm_h := gm_h g; gm_m := gm_m g;
     gm_u := uu; gm_v := gm_v g; gm_a3 := gm_a3 g;
     gm_f_int := gm_f_int g |}.

Definition assv (vv : list Q) (g : GridModel) : GridModel :=
  {| gm_Q := gm_Q g; gm_dofs := gm_dofs g; gm_h := gm_h g; gm_m := gm_m g;
     gm_u := gm_u g; gm_v := vv; gm_a3 := gm_a3 g;
     gm_f_int := gm_f_int g |}.

Definition update_acceleration (cs : list (list Q)) (g : GridModel) : GridModel :=
  {| gm_Q := gm_Q g; gm_dofs := gm_dofs g; gm_h := gm_h g; gm_m := gm_m g;
     gm_u := gm_u g; gm_v := gm_v g; gm_a3 := cs;
     gm_f_int := gm_f_int g |}.

Definition update_internal_force_vector (cs : list (list Q)) (g : GridModel)
  : GridModel :=
  {| gm_Q := gm_Q g; gm_dofs := gm_dofs g; gm_h := gm_h g; gm_m := gm_m g;
     gm_u := gm_u g; gm_v := gm_v g; gm_a3 := gm_a3 g;
     gm_f_int := cs |}.

(** What a method does to the outside, in program order. *)
Inductive Event : Type :=
| ev_text (s : string)                 (* print_text(s, ...)              *)
| ev_min_max (label : string)          (* print_min_max(_, label)         *)
| ev_new (dims : list Z) (step : Q)    (* mpm_module.MPMModel(_,_,dims,dt) *)
| ev_set_h                             (* mpm_cpp.set_h(...)              *)
| ev_cpp (c : CppCall)                 (* a completed mpm_cpp.<c>()       *)
| ev_get_m                             (* mpm_cpp.get_m()                 *)
| ev_get (f : GridVec) (k : nat)       (* mpm_cpp.get_<f>(k)              *)
| ev_put_m                             (* grid_model.update_mass          *)
| ev_put (f : GridVec) (k : nat)       (* component k of <f> written      *)
| ev_file (name : string)              (* File(out_dir + name)            *)
| ev_save_pvd (name : string) (t : Q)  (* grid_model.save_pvd(_, name, t=t) *)
| ev_debug (label : string)            (* print label, ...                *)
| ev_time (t : Q).                     (* '>>> Time: %g s ...' % t        *)

(* ================================================================== *)
(** ** The driver                                                       *)
(* ================================================================== *)

Section Driver.

Variable E : Engine.

(** The attributes of a [Model] instance ([self]). *)
Record Model : Type := {
  out_dir : string;
  grid_model : GridModel;
  dt : Q;
  materials : list Material;
  mpm_cpp : cpp_state E
}.

Definition set_grid_model (g : GridModel) (self : Model) : Model :=
  {| out_dir := out_dir self; grid_model := g; dt := dt self;
     materials := materials self; mpm_cpp := mpm_cpp self |}.

Definition set_materials (Ms : list Material) (self : Model) : Model :=
  {| out_dir := out_dir self; grid_model := grid_model self; dt := dt self;
     materials := Ms; mpm_cpp := mpm_cpp self |}.

Definition set_mpm_cpp (s : cpp_state E) (self : Model) : Model :=
  {| out_dir := out_dir self; grid_model := grid_model self; dt := dt self;
     materials := materials self; mpm_cpp := s |}.

(** *** The monad of methods

    A method runs on [self] and ends in one of three ways; each carries the
    object as the method left it and the log of what was done.  [OutOfFuel]
    only arises from the [while] loop of [mpm]. *)
Inductive result (A : Type) : Type :=
| Ok (v : A) (self : Model) (log : list Event)
| Raise (e : exn) (self : Model) (log : list Event)
| OutOfFuel (self : Model) (log : list Event).
Arguments Ok {A} v self log.
Arguments Raise {A} e self log.
Arguments OutOfFuel {A} self log.

Definition py (A : Type) : Type := Model -> result A.

Definition ret {A : Type} (v : A) : py A := fun self => Ok v self [].

Definition bind {A B : Type} (m : py A) (f : A -> py B) : py B :=
  fun self =>
    match m self with
    | Ok v self1 l1 =>
        match f v self1 with
        | Ok w self2 l2 => Ok w self2 (l1 ++ l2)
        | Raise e self2 l2 => Raise e self2 (l1 ++ l2)
        | OutOfFuel self2 l2 => OutOfFuel self2 (l1 ++ l2)
        end
    | Raise e self1 l1 => Raise e self1 l1
    | OutOfFuel self1 l1 => OutOfFuel self1 l1
    end.

Notation "x <- c1 ;; c2" := (bind c1 (fun x => c2))
  (at level 61, c1 at next level, right associativity).
Notation "c1 ;; c2" := (bind c1 (fun _ => c2))
  (at level 61, right associativity).

Definition raise {A : Type} (e : exn) : py A := fun self => Raise e self [].
Definition out_of_fuel {A : Type} : py A := fun self => OutOfFuel self [].
Definition get_self : py Model := fun self => Ok self self [].
Definition modify (f : Model -> Model) : py unit :=
  fun self => Ok tt (f self) [].
Definition emit (e : Event) : py unit := fun self => Ok tt self [e].

(** The final object and the log of a run, whatever its end. *)
Definition final {A : Type} (r : result A) : Model :=
  match r with Ok _ s _ | Raise _ s _ | OutOfFuel s _ => s end.
Definition log_of {A : Type} (r : result A) : list Event :=
  match r with Ok _ _ l | Raise _ _ l | OutOfFuel _ l => l end.

(** [self.mpm_cpp.<c>()]: logged once it has completed. *)
Definition call (c : CppCall) : py unit :=
  fun self =>
    match cpp_call E c (mpm_cpp self) with
    | cpp_ok s => Ok tt (set_mpm_cpp s self) [ev_cpp c]
    | cpp_throw e s => Raise e (set_mpm_cpp s self) []
    end.

Definition print_text (s : string) : py unit := emit (ev_text s).
Definition print_min_max (label : string) : py unit := emit (ev_min_max label).

(** [for M in self.materials: body]; the body mutates [M] in place. *)
Fixpoint for_in (done todo : list Material) (body : Material -> py Material)
  : py unit :=
  match todo with
  | [] => ret tt
  | M :: rest =>
      M' <- body M ;;
      modify (set_materials (done ++ M' :: rest)) ;;
      for_in (done ++ [M']) rest body
  end.

Definition for_materials (body : Material -> py Material) : py unit :=
  self <- get_self ;;
  for_in [] (materials self) body.

(** [np.array([M.cpp_mat.get_<r>(i) for i in range(n)], dtype=float)] with
    [n = M.cpp_mat.get_num_particles()], assigned to the attribute [k]. *)
Definition read_rows (r : Row) (k : Attr) (M : Material) : py Material :=
  self <- get_self ;;
  let s := mpm_cpp self in
  let n := get_num_particles E (cpp_mat M) s in
  ret (setattr M k (array2 (map (get_row E r (cpp_mat M) s) (seq 0 n)))).

Definition read_vrt (M : Material) : py Material :=
  self <- get_self ;;
  let s := mpm_cpp self in
  let n := get_num_particles E (cpp_mat M) s in
  ret (setattr M M_vrt (arrayZ (map (get_vrt E (cpp_mat M) s) (seq 0 n)))).

(** [np.array(M.cpp_mat.get_<c>(), dtype=float)] assigned to [k]. *)
Definition read_column (c : Column) (k : Attr) (M : Material) : py Material :=
  self <- get_self ;;
  ret (setattr M k (array1 (get_column E c (cpp_mat M) (mpm_cpp self)))).

(** [__init__]: the engine is built with the constant flag [[1,1,0]]. *)
Definition Model_init (out : string) (g : GridModel) (step : Q)
  : Model * list Event :=
  let dims := [1; 1; 0]%Z in
  let s := MPMModel E (gm_Q g) (gm_dofs g) dims step in
  ({| out_dir := out; grid_model := g; dt := step; materials := [];
      mpm_cpp := set_h E (gm_h g) s |},
   [ev_text "::: INITIALIZING MPM MODEL :::"; ev_new dims step; ev_set_h]).

Definition formulate_material_basis_functions : py unit :=
  print_text "::: FORMULATING BASIS FUNCTIONS :::" ;;
  call formulate_material_basis_functions_cpp ;;
  for_materials (fun M =>
    M <- read_vrt M ;;
    M <- read_rows get_phi (M_row get_phi) M ;;
    read_rows get_grad_phi (M_row get_grad_phi) M).

Definition interpolate_material_mass_to_grid : py unit :=
  print_text "::: INTERPOLATING MATERIAL MASS TO GRID  :::" ;;
  call interpolate_material_mass_to_grid_cpp ;;
  self <- get_self ;;
  emit ev_get_m ;;
  let m := get_m E (mpm_cpp self) in
  emit ev_put_m ;;
  modify (fun self => set_grid_model (update_mass m (grid_model self)) self).

Definition interpolate_material_velocity_to_grid : py unit :=
  print_text "::: INTERPOLATING MATERIAL VELOCITY TO GRID :::" ;;
  call interpolate_material_velocity_to_grid_cpp ;;
  self <- get_self ;;
  emit (ev_get U3 0) ;;
  let uu := get_vec E U3 0 (mpm_cpp self) in
  emit (ev_get U3 1) ;;
  let vv := get_vec E U3 1 (mpm_cpp self) in
  emit (ev_put U3 0) ;;
  modify (fun self => set_grid_model (assu uu (grid_model self)) self) ;;
  emit (ev_put U3 1) ;;
  modify (fun self => set_grid_model (assv vv (grid_model self)) self) ;;
  print_min_max "U3".

Definition calculate_material_density : py unit :=
  print_text "::: CALCULATING MATERIAL DENSITY :::" ;;
  call calculate_grid_volume_cpp ;;
  call calculate_material_density_cpp ;;
  for_materials (fun M =>
    M <- read_column get_rho (M_col get_rho) M ;;
    print_min_max "M.rho_0" ;;
    ret M).

(** [M.V0] is filled from [get_V()] and [M.V] from [get_V0()], as written. *)
Definition calculate_material_initial_volume : py unit :=
  print_text "::: CALCULATING MATERIAL INITIAL VOLUME :::" ;;
  call calculate_material_initial_volume_cpp ;;
  for_materials (fun M =>
    M <- read_column get_V (M_col get_V0) M ;;
    M <- read_column get_V0 (M_col get_V) M ;;
    print_min_max "M.V_0" ;;
    ret M).

Definition calculate_material_velocity_gradient : py unit :=
  print_text "::: CALCULATING MATERIAL VELOCITY GRADIENT :::" ;;
  call calculate_material_velocity_gradient_cpp ;;
  for_materials (fun M =>
    M <- read_rows get_grad_u (M_row get_grad_u) M ;;
    print_min_max "M.grad_u" ;;
    ret M).

Definition interpolate_grid_velocity_to_material : py unit :=
  print_text "::: INTERPOLATING GRID VELOCITY TO MATERIAL :::" ;;
  call interpolate_grid_velocity_to_material_cpp ;;
  for_materials (fun M =>
    M <- read_rows get_u_star (M_row get_u_star) M ;;
    print_min_max "M.u_star" ;;
    ret M).

(** No engine call here: the method only copies [get_a(i)] back. *)
Definition interpolate_grid_acceleration_to_material : py unit :=
  print_text "::: INTERPOLATING GRID ACCELERATION TO MATERIAL :::" ;;
  for_materials (fun M =>
    M <- read_rows get_a (M_row get_a) M ;;
    print_min_max "M.a" ;;
    ret M).

Definition initialize_material_tensors : py unit :=
  print_text "::: INITIALIZING MATERIAL TENSORS :::" ;;
  calculate_material_velocity_gradient ;;
  call initialize_material_tensors_cpp ;;
  for_materials (fun M =>
    M <- read_rows get_dF (M_row get_dF) M ;;
    M <- read_rows get_F (M_row get_F) M ;;
    M <- read_rows get_epsilon (M_row get_epsilon) M ;;
    M <- read_rows get_sigma (M_row get_sigma) M ;;
    print_min_max "M.dF_0" ;;
    print_min_max "M.F_0" ;;
    print_min_max "M.epsilon_0" ;;
    print_min_max "M.sigma_0" ;;
    ret M).

Definition update_material_volume : py unit :=
  print_text "::: UPDATING MATERIAL VOLUME :::" ;;
  call update_material_volume_cpp ;;
  for_materials (fun M =>
    M <- read_column get_V (M_col get_V) M ;;
    print_min_max "M.V" ;;
    ret M).

Definition update_material_deformation_gradient : py unit :=
  print_text "::: UPDATING MATERIAL DEFORMATION GRADIENT :::" ;;
  call update_material_deformation_gradient_cpp ;;
  for_materials (fun M =>
    M <- read_rows get_dF (M_row get_dF) M ;;
    M <- read_rows get_F (M_row get_F) M ;;
    print_min_max "M.dF" ;;
    print_min_max "M.F" ;;
    ret M).

Definition update_material_stress : py unit :=
  print_text "::: UPDATING MATERIAL STRESS :::" ;;
  call update_material_stress_cpp ;;
  for_materials (fun M =>
    M <- read_rows get_epsilon (M_row get_epsilon) M ;;
    M <- read_rows get_sigma (M_row get_sigma) M ;;
    print_min_max "M.epsilon" ;;
    print_min_max "M.sigma" ;;
    ret M).

Definition calculate_grid_internal_forces : py unit :=
  print_text "::: CALCULATING GRID INTERNAL FORCES :::" ;;
  call calculate_grid_internal_forces_cpp ;;
  self <- get_self ;;
  emit (ev_get f_int 0) ;;
  let f_int_x := get_vec E f_int 0 (mpm_cpp self) in
  emit (ev_get f_int 1) ;;
  let f_int_y := get_vec E f_int 1 (mpm_cpp self) in
  emit (ev_put f_int 0) ;;
  emit (ev_put f_int 1) ;;
  modify (fun self =>
    set_grid_model
      (update_internal_force_vector [f_int_x; f_int_y] (grid_model self)) self).

Definition update_grid_velocity : py unit :=
  print_text "::: UPDATING GRID VELOCITY :::" ;;
  call update_grid_velocity_cpp ;;
  self <- get_self ;;
  emit (ev_get U3 0) ;;
  let uu := get_vec E U3 0 (mpm_cpp self) in
  emit (ev_get U3 1) ;;
  let vv := get_vec E U3 1 (mpm_cpp self) in
  emit (ev_put U3 0) ;;
  modify (fun self => set_grid_model (assu uu (grid_model self)) self) ;;
  emit (ev_put U3 1) ;;
  modify (fun self => set_grid_model (assv vv (grid_model self)) self) ;;
  print_min_max "U3".

Definition calculate_grid_acceleration : py unit :=
  print_text "::: CALCULATING GRID ACCELERATIONS :::" ;;
  call calculate_grid_acceleration_cpp ;;
  self <- get_self ;;
  emit (ev_get a3 0) ;;
  let a_x := get_vec E a3 0 (mpm_cpp self) in
  emit (ev_get a3 1) ;;
  let a_y := get_vec E a3 1 (mpm_cpp self) in
  emit (ev_put a3 0) ;;
  emit (ev_put a3 1) ;;
  modify (fun self =>
    set_grid_model (update_acceleration [a_x; a_y] (grid_model self)) self).

Definition advect_material_particles : py unit :=
  print_text "::: ADVECTING MATERIAL PARTICLES :::" ;;
  interpolate_grid_velocity_to_material ;;
  call advect_material_particles_cpp ;;
  for_materials (fun M =>
    M <- read_rows get_u (M_row get_u) M ;;
    M <- read_rows get_x (M_row get_x) M ;;
    print_min_max "M.u" ;;
    print_min_max "M.x" ;;
    ret M).

(** [print label, self.materials[0].<k>[100]] *)
Definition debug_print (label : string) (k : Attr) : py unit :=
  self <- get_self ;;
  match nth_error (materials self) 0 with
  | None => raise IndexError
  | Some M =>
      match getattr M k with
      | None => raise AttributeError
      | Some arr =>
          match getitem arr 100 with
          | None => raise IndexError
          | Some _ => emit (ev_debug label)
          end
      end
  end.

Definition save_pvd (name : string) (t : Q) : py unit :=
  emit (ev_save_pvd name t).

(** The body of the [while] loop of [mpm] up to, not including, [t += dt]. *)
Definition mpm_step (t_start t : Q) : py unit :=
  formulate_material_basis_functions ;;
  interpolate_material_mass_to_grid ;;
  interpolate_material_velocity_to_grid ;;
  (if Qeq_bool t t_start then
     initialize_material_tensors ;;
     calculate_material_density ;;
     calculate_material_initial_volume
   else ret tt) ;;
  calculate_grid_internal_forces ;;
  calculate_grid_acceleration ;;
  update_grid_velocity ;;
  calculate_material_velocity_gradient ;;
  update_material_deformation_gradient ;;
  update_material_volume ;;
  update_material_stress ;;
  save_pvd "m" t ;;
  save_pvd "U3" t ;;
  save_pvd "a3" t ;;
  save_pvd "f_int" t ;;
  debug_print "grad_u" (M_row get_grad_u) ;;
  debug_print "epsilon" (M_row get_epsilon) ;;
  debug_print "sigma" (M_row get_sigma) ;;
  advect_material_particles.

(** One pass through the loop body: the stages, then [t += self.dt] and the
    line that prints the new time.  Returns the new [t]. *)
Definition mpm_iteration (t_start t : Q) : py Q :=
  mpm_step t_start t ;;
  self <- get_self ;;
  let t' := (t + dt self)%Q in
  emit (ev_time t') ;;
  ret t'.

(** [while t <= t_end: ...], returning the value of [t] on exit. *)
Fixpoint mpm_while (fuel : nat) (t_start t_end t : Q) : py Q :=
  match fuel with
  | O => out_of_fuel
  | S fuel' =>
      if Qle_bool t t_end then
        t' <- mpm_iteration t_start t ;;
        mpm_while fuel' t_start t_end t'
      else ret t
  end.

Definition mpm (fuel : nat) (t_start t_end : Q) : py Q :=
  print_text "::: BEGIN MPM ALGORITHM :::" ;;
  emit (ev_file "/m.pvd") ;;
  emit (ev_file "/u.pvd") ;;
  emit (ev_file "/a.pvd") ;;
  emit (ev_file "/f.pvd") ;;
  t <- mpm_while fuel t_start t_end t_start ;;
  print_text "total time to perform transient run" ;;
  ret t.

End Driver.

Arguments ret {E A} v self.
Arguments bind {E A B} m f self.
Arguments raise {E A} e self.
Arguments out_of_fuel {E A} self.
Arguments get_self {E} self.
Arguments modify {E} f self.
Arguments emit {E} e self.
Arguments Ok {E A} v self log.
Arguments Raise {E A} e self log.
Arguments OutOfFuel {E A} self log.
Arguments final {E A} r.
Arguments log_of {E A} r.
Arguments out_dir {E} m.
Arguments grid_model {E} m.
Arguments dt {E} m.
Arguments materials {E} m.
Arguments mpm_cpp {E} m.

(* ================================================================== *)
(** ** Reading a log                                                    *)
(* ================================================================== *)

Definition is_cpp (c : CppCall) (e : Event) : bool :=
  match e with ev_cpp d => CppCall_eqb c d | _ => false end.

Definition is_time (e : Event) : bool :=
  match e with ev_time _ => true | _ => false end.

Definition is_min_max (e : Event) : bool :=
  match e with ev_min_max _ => true | _ => false end.

(** The log without the [print_min_max] lines, whose number depends on how
    many materials there are. *)
Definition stages (l : list Event) : list Event :=
  filter (fun e => negb (is_min_max e)) l.

Definition count (p : Event -> bool) (l : list Event) : nat :=
  List.length (filter p l).

(** Some event recognised by [p] comes strictly before one recognised by [q]. *)
Fixpoint precedes (p q : Event -> bool) (l : list Event) : bool :=
  match l with
  | [] => false
  | e :: l' => (p e && existsb q l') || precedes p q l'
  end.

(** The engine calls of a log, in order. *)
Fixpoint cpp_calls (l : list Event) : list CppCall :=
  match l with
  | [] => []
  | ev_cpp c :: l' => c :: cpp_calls l'
  | _ :: l' => cpp_calls l'
  end.

(** Snapshots, particle advection and the advance of time. *)
Definition is_milestone (e : Event) : bool :=
  match e with
  | ev_save_pvd _ _ | ev_time _ => true
  | ev_cpp c =>
      CppCall_eqb c update_material_stress_cpp
      || CppCall_eqb c advect_material_particles_cpp
  | ev_text s => String.eqb s "::: ADVECTING MATERIAL PARTICLES :::"
  | _ => false
  end.

(** Grid-to-particle interpolation of the acceleration, by the driver's own
    method or by the engine. *)
Definition is_G2P_acceleration (e : Event) : bool :=
  match e with
  | ev_text s =>
      String.eqb s "::: INTERPOLATING GRID ACCELERATION TO MATERIAL :::"
  | ev_cpp c => CppCall_eqb c interpolate_grid_acceleration_to_material_cpp
  | _ => false
  end.

(** An event that touches no third component and no other dimension flag. *)
Definition two_dimensional (e : Event) : Prop :=
  match e with
  | ev_get _ k | ev_put _ k => k = 0 \/ k = 1
  | ev_new dims _ => dims = [1; 1; 0]%Z
  | _ => True
  end.

(** *** What each method logs when it runs to its end *)

Definition p2g_script : list Event :=
  [ ev_text "::: FORMULATING BASIS FUNCTIONS :::";
    ev_cpp formulate_material_basis_functions_cpp;
    ev_text "::: INTERPOLATING MATERIAL MASS TO GRID  :::";
    ev_cpp interpolate_material_mass_to_grid_cpp;
    ev_get_m; ev_put_m;
    ev_text "::: INTERPOLATING MATERIAL VELOCITY TO GRID :::";
    ev_cpp interpolate_material_velocity_to_grid_cpp;
    ev_get U3 0; ev_get U3 1; ev_put U3 0; ev_put U3 1 ].

Definition velocity_gradient_script : list Event :=
  [ ev_text "::: CALCULATING MATERIAL VELOCITY GRADIENT :::";
    ev_cpp calculate_material_velocity_gradient_cpp ].

Definition init_script : list Event :=
  [ ev_text "::: INITIALIZING MATERIAL TENSORS :::" ]
  ++ velocity_gradient_script ++
  [ ev_cpp initialize_material_tensors_cpp;
    ev_text "::: CALCULATING MATERIAL DENSITY :::";
    ev_cpp calculate_grid_volume_cpp;
    ev_cpp calculate_material_density_cpp;
    ev_text "::: CALCULATING MATERIAL INITIAL VOLUME :::";
    ev_cpp calculate_material_initial_volume_cpp ].

Definition grid_script : list Event :=
  [ ev_text "::: CALCULATING GRID INTERNAL FORCES :::";
    ev_cpp calculate_grid_internal_forces_cpp;
    ev_get f_int 0; ev_get f_int 1; ev_put f_int 0; ev_put f_int 1;
    ev_text "::: CALCULATING GRID ACCELERATIONS :::";
    ev_cpp calculate_grid_acceleration_cpp;
    ev_get a3 0; ev_get a3 1; ev_put a3 0; ev_put a3 1;
    ev_text "::: UPDATING GRID VELOCITY :::";
    ev_cpp update_grid_velocity_cpp;
    ev_get U3 0; ev_get U3 1; ev_put U3 0; ev_put U3 1 ].

Definition constitutive_script : list Event :=
  velocity_gradient_script ++
  [ ev_text "::: UPDATING MATERIAL DEFORMATION GRADIENT :::";
    ev_cpp update_material_deformation_gradient_cpp;
    ev_text "::: UPDATING MATERIAL VOLUME :::";
    ev_cpp update_material_volume_cpp;
    ev_text "::: UPDATING MATERIAL STRESS :::";
    ev_cpp update_material_stress_cpp ].

Definition output_script (t : Q) : list Event :=
  [ ev_save_pvd "m" t; ev_save_pvd "U3" t; ev_save_pvd "a3" t;
    ev_save_pvd "f_int" t;
    ev_debug "grad_u"; ev_debug "epsilon"; ev_debug "sigma" ].

Definition advect_script : list Event :=
  [ ev_text "::: ADVECTING MATERIAL PARTICLES :::";
    ev_text "::: INTERPOLATING GRID VELOCITY TO MATERIAL :::";
    ev_cpp interpolate_grid_velocity_to_material_cpp;
    ev_cpp advect_material_particles_cpp ].

Definition step_script (init : bool) (t : Q) : list Event :=
  p2g_script ++ (if init then init_script else []) ++ grid_script
  ++ constitutive_script ++ output_script t ++ advect_script.

Definition iteration_script (init : bool) (t step : Q) : list Event :=
  step_script init t ++ [ev_time (t + step)%Q].

(** *** The times of the loop *)

(** The value of [t] after [k] additions of [step]. *)
Fixpoint time_at (t step : Q) (k : nat) : Q :=
  match k with
  | O => t
  | S k' => time_at (t + step)%Q step k'
  end.

(** How many values [t_start + k * step] are [<= t_end], for [step > 0]. *)
Definition n_steps (t_start t_end step : Q) : nat :=
  if Qle_bool t_start t_end
  then S (Z.to_nat (Qfloor ((t_end - t_start) / step)%Q))
  else 0.

Fixpoint while_script (n : nat) (t_start t step : Q) : list Event :=
  match n with
  | O => []
  | S n' =>
      iteration_script (Qeq_bool t t_start) t step
      ++ while_script n' t_start (t + step)%Q step
  end.

Definition prologue : list Event :=
  [ ev_text "::: BEGIN MPM ALGORITHM :::";
    ev_file "/m.pvd"; ev_file "/u.pvd"; ev_file "/a.pvd"; ev_file "/f.pvd" ].

(** The log of a call of [mpm] that returns after [n] passes. *)
Definition mpm_script (n : nat) (t_start step : Q) : list Event :=
  prologue ++ while_script n t_start t_start step
  ++ [ ev_text "total time to perform transient run" ].

(* ================================================================== *)
(** ** The engine's constitutive updater                                *)
(* ================================================================== *)

(** The sources of [mpm_module.MPMModel] ([fenics_mpm/cpp/]) are not in the
    source tree.  Its particle kinematics are modelled below from the spec
    (section 4.2) and from the docstrings of [model.py]; everything that
    needs the grid or the stress law (transfers, grid solver, density sum,
    velocity gradient sum, strain and stress) is left to a collaborator. *)

Local Open Scope Q_scope.

(** A tensor of a two-dimensional problem; the engine stores it flattened,
    row by row. *)
Record Mat2 : Type := { m11 : Q; m12 : Q; m21 : Q; m22 : Q }.

Definition flat (A : Mat2) : list Q := [m11 A; m12 A; m21 A; m22 A].

Definition identity : Mat2 := {| m11 := 1; m12 := 0; m21 := 0; m22 := 1 |}.

Definition madd (A B : Mat2) : Mat2 :=
  {| m11 := m11 A + m11 B; m12 := m12 A + m12 B;
     m21 := m21 A + m21 B; m22 := m22 A + m22 B |}.

Definition mscale (c : Q) (A : Mat2) : Mat2 :=
  {| m11 := c * m11 A; m12 := c * m12 A;
     m21 := c * m21 A; m22 := c * m22 A |}.

(** The element-wise (Hadamard) product. *)
Definition hadamard (A B : Mat2) : Mat2 :=
  {| m11 := m11 A * m11 B; m12 := m12 A * m12 B;
     m21 := m21 A * m21 B; m22 := m22 A * m22 B |}.

Definition det (A : Mat2) : Q := m11 A * m22 A - m12 A * m21 A.

(** The determinant of a flattened tensor, as read back by the driver. *)
Definition det_flat (r : list Q) : Q :=
  match r with
  | [a11; a12; a21; a22] => a11 * a22 - a12 * a21
  | _ => 0
  end.

(** The kinematic state of one particle. *)
Record Particle : Type := {
  p_m : Q;
  p_rho : Q;
  p_V : Q;
  p_V0 : Q;
  p_grad_u : Mat2;
  p_dF : Mat2;
  p_F : Mat2
}.

(** Modelled from the spec: [calculateInitialVolume()] (init-only):
    "V_p = m_p / rho_p; sets V0_p = V_p".  ([x / 0] is [0] in [Q].) *)
Definition calculate_initial_volume (p : Particle) : Particle :=
  let v := p_m p / p_rho p in
  {| p_m := p_m p; p_rho := p_rho p; p_V := v; p_V0 := v;
     p_grad_u := p_grad_u p; p_dF := p_dF p; p_F := p_F p |}.

(** Modelled from the spec: [initializeTensors()] (init-only):
    "dF_p = I + dt grad u_p; F_p = dF_p". *)
Definition initialize_tensors (step : Q) (p : Particle) : Particle :=
  let d := madd identity (mscale step (p_grad_u p)) in
  {| p_m := p_m p; p_rho := p_rho p; p_V := p_V p; p_V0 := p_V0 p;
     p_grad_u := p_grad_u p; p_dF := d; p_F := d |}.

(** Modelled from the spec: [updateDeformationGradient()] (every step):
    "dF_p = I + dt grad u_p; F_p^t = dF_p o F_p^(t-1)" with "o" the
    element-wise product. *)
Definition update_deformation_gradient (step : Q) (p : Particle) : Particle :=
  let d := madd identity (mscale step (p_grad_u p)) in
  {| p_m := p_m p; p_rho := p_rho p; p_V := p_V p; p_V0 := p_V0 p;
     p_grad_u := p_grad_u p; p_dF := d; p_F := hadamard d (p_F p) |}.

(** Modelled from the spec: [updateVolume()]:
    "V_p^t = det(dF_p) V_p^(t-1)". *)
Definition update_volume (p : Particle) : Particle :=
  {| p_m := p_m p; p_rho := p_rho p; p_V := det (p_dF p) * p_V p;
     p_V0 := p_V0 p;
     p_grad_u := p_grad_u p; p_dF := p_dF p; p_F := p_F p |}.

Definition set_rho (r : Q) (p : Particle) : Particle :=
  {| p_m := p_m p; p_rho := r; p_V := p_V p; p_V0 := p_V0 p;
     p_grad_u := p_grad_u p; p_dF := p_dF p; p_F := p_F p |}.

Definition set_grad_u (G : Mat2) (p : Particle) : Particle :=
  {| p_m := p_m p; p_rho := p_rho p; p_V := p_V p; p_V0 := p_V0 p;
     p_grad_u := G; p_dF := p_dF p; p_F := p_F p |}.

(** The rest of the engine: the grid fields, the basis cache, the transfer
    sums and the stress law.  It sees the particles, keeps a state of its own
    and may throw; the constitutive updater takes the density and the
    velocity gradient of each particle (material [j], particle [i]) from it. *)
Record Collab : Type := {
  co_state : Type;
  co_new : nat -> list Z -> list Z -> Q -> co_state;
  co_set_h : list Q -> co_state -> co_state;
  co_call : CppCall -> list (list Particle) -> co_state -> cpp_result co_state;
  co_rho : co_state -> nat -> nat -> Q;
  co_grad_u : co_state -> nat -> nat -> Mat2;
  co_get_m : co_state -> list Q;
  co_get_vec : GridVec -> nat -> co_state -> list Q;
  co_get_vrt : nat -> co_state -> nat -> list Z;
  co_get_row : Row -> nat -> co_state -> nat -> list Q
}.

Section SpecEngine.

Variable C : Collab.

Record SpecState : Type := {
  sp_dt : Q;
  sp_dims : list Z;
  sp_particles : list (list Particle);
  sp_rest : co_state C
}.

Definition set_particles (ps : list (list Particle)) (s : SpecState)
  : SpecState :=
  {| sp_dt := sp_dt s; sp_dims := sp_dims s; sp_particles := ps;
     sp_rest := sp_rest s |}.

Definition set_rest (r : co_state C) (s : SpecState) : SpecState :=
  {| sp_dt := sp_dt s; sp_dims := sp_dims s;
     sp_particles := sp_particles s; sp_rest := r |}.

(** [f j i p] applied to particle [i] of material [j], for all of them. *)
Definition for_particles (f : nat -> nat -> Particle -> Particle)
  (ps : list (list Particle)) : list (list Particle) :=
  map (fun jm => map (fun ip => f (fst jm) (fst ip) (snd ip))
                     (combine (seq 0 (List.length (snd jm))) (snd jm)))
      (combine (seq 0 (List.length ps)) ps).

(** The constitutive part of an engine call, after the collaborator's part. *)
Definition constitutive (c : CppCall) (s : SpecState) : SpecState :=
  let on f := set_particles (for_particles f (sp_particles s)) s in
  match c with
  | calculate_material_density_cpp =>
      on (fun j i => set_rho (co_rho C (sp_rest s) j i))
  | calculate_material_initial_volume_cpp =>
      on (fun _ _ => calculate_initial_volume)
  | calculate_material_velocity_gradient_cpp =>
      on (fun j i => set_grad_u (co_grad_u C (sp_rest s) j i))
  | initialize_material_tensors_cpp =>
      on (fun _ _ => initialize_tensors (sp_dt s))
  | update_material_deformation_gradient_cpp =>
      on (fun _ _ => update_deformation_gradient (sp_dt s))
  | update_material_volume_cpp =>
      on (fun _ _ => update_volume)
  | _ => s
  end.

Definition spec_call (c : CppCall) (s : SpecState) : cpp_result SpecState :=
  match co_call C c (sp_particles s) (sp_rest s) with
  | cpp_ok r => cpp_ok (constitutive c (set_rest r s))
  | cpp_throw e r => cpp_throw e (set_rest r s)
  end.

Definition particles_of (j : nat) (s : SpecState) : list Particle :=
  nth j (sp_particles s) [].

Definition zero_particle : Particle :=
  {| p_m := 0; p_rho := 0; p_V := 0; p_V0 := 0;
     p_grad_u := mscale 0 identity; p_dF := mscale 0 identity;
     p_F := mscale 0 identity |}.

Definition spec_get_row (r : Row) (j : nat) (s : SpecState) (i : nat) : list Q :=
  let p := nth i (particles_of j s) zero_particle in
  match r with
  | get_grad_u => flat (p_grad_u p)
  | get_dF => flat (p_dF p)
  | get_F => flat (p_F p)
  | _ => co_get_row C r j (sp_rest s) i
  end.

Definition spec_get_column (c : Column) (j : nat) (s : SpecState) : list Q :=
  match c with
  | get_rho => map p_rho (particles_of j s)
  | get_V => map p_V (particles_of j s)
  | get_V0 => map p_V0 (particles_of j s)
  end.

Definition SpecEngine : Engine :=
  {| cpp_state := SpecState;
     MPMModel := fun fs dofs dims step =>
       {| sp_dt := step; sp_dims := dims; sp_particles := [];
          sp_rest := co_new C fs dofs dims step |};
     set_h := fun h s => set_rest (co_set_h C h (sp_rest s)) s;
     cpp_call := spec_call;
     get_m := fun s => co_get_m C (sp_rest s);
     get_vec := fun f k s => co_get_vec C f k (sp_rest s);
     get_num_particles := fun j s => List.length (particles_of j s);
     get_vrt := fun j s => co_get_vrt C j (sp_rest s);
     get_row := spec_get_row;
     get_column := spec_get_column |}.

End SpecEngine.

Arguments sp_dt {C} s.
Arguments sp_dims {C} s.
Arguments sp_particles {C} s.
Arguments sp_rest {C} s.
Arguments particles_of {C} j s.

(** *** A concrete setting: a steady velocity gradient

    A collaborator that never throws and reports the same density [d] and
    the same velocity gradient [G] for every particle at every step (the
    kind of loading of the spec's scenario B). *)
Definition steady (G : Mat2) (d : Q) : Collab :=
  {| co_state := unit;
     co_new := fun _ _ _ _ => tt;
     co_set_h := fun _ _ => tt;
     co_call := fun _ _ _ => cpp_ok tt;
     co_rho := fun _ _ _ => d;
     co_grad_u := fun _ _ _ => G;
     co_get_m := fun _ => [];
     co_get_vec := fun _ _ _ => [];
     co_get_vrt := fun _ _ _ => [];
     co_get_row := fun _ _ _ _ => [0; 0] |}.

Definition blank_material (j : nat) : Material :=
  {| cpp_mat := j; attrs := [] |}.

Definition blank_grid : GridModel :=
  {| gm_Q := 0%nat; gm_dofs := []; gm_h := []; gm_m := []; gm_u := [];
     gm_v := []; gm_a3 := []; gm_f_int := [] |}.

Definition fresh_particle (m : Q) : Particle :=
  {| p_m := m; p_rho := 0; p_V := 0; p_V0 := 0;
     p_grad_u := mscale 0 identity; p_dF := mscale 0 identity;
     p_F := mscale 0 identity |}.

(** One material of [n] particles of mass [m], time step [step]. *)
Definition cloud (G : Mat2) (d : Q) (n : nat) (m step : Q)
  : Model (SpecEngine (steady G d)) :=
  Build_Model (SpecEngine (steady G d)) "./output/" blank_grid step
    [blank_material 0]
    (Build_SpecState (steady G d) step [1; 1; 0]%Z
       [repeat (fresh_particle m) n] tt).

Definition shear : Mat2 := {| m11 := 0; m12 := 1; m21 := 1; m22 := 0 |}.

(** Entry [i] of the vector attribute [k] of a material. *)
Definition scalar_at (M : Material) (k : Attr) (i : nat) : option Q :=
  match getattr M k with
  | Some (array1 l) => nth_error l i
  | _ => None
  end.

(** Row [i] of the matrix attribute [k] of a material. *)
Definition row_at (M : Material) (k : Attr) (i : nat) : option (list Q) :=
  match getattr M k with
  | Some (array2 l) => nth_error l i
  | _ => None
  end.

(** [M.V[i] == det(M.F[i]) * M.V0[i]] *)
Definition volume_consistent (M : Material) (i : nat) : bool :=
  match scalar_at M (M_col get_V) i, row_at M (M_row get_F) i,
        scalar_at M (M_col get_V0) i with
  | Some v, Some f, Some v0 => Qeq_bool v (det_flat f * v0)
  | _, _, _ => false
  end.

Local Close Scope Q_scope.


(* ================================================================== *)
(** ** Predicates on methods                                            *)
(* ================================================================== *)

(** [l] is the beginning of [sc], and something of [sc] is left. *)
Definition strict_prefix (l sc : list Event) : Prop :=
  exists rest, rest <> [] /\ sc = l ++ rest.

(** A method that cannot raise, logs nothing but [print_min_max] lines and
    leaves the time step alone. *)
Definition quiet {E : Engine} {A : Type} (m : py E A) : Prop :=
  forall self, exists v self' l,
    m self = Ok v self' l /\ stages l = [] /\ dt self' = dt self.

(** A method that follows the script [sc]: it logs all of it when it
    completes and a proper beginning of it when it raises; it never changes
    the time step. *)
Definition scripted {E : Engine} {A : Type} (m : py E A) (sc : list Event)
  : Prop :=
  forall self,
    dt (final (m self)) = dt self /\
    match m self with
    | Ok _ _ l => stages l = sc
    | Raise _ _ l => strict_prefix (stages l) sc
    | OutOfFuel _ _ => False
    end.

(** Did the method run to its end? *)
Definition completed {E : Engine} {A : Type} (r : result E A) : bool :=
  match r with Ok _ _ _ => true | _ => false end.

Definition raised {E : Engine} {A : Type} (r : result E A) : bool :=
  match r with Raise _ _ _ => true | _ => false end.

Definition is_save (e : Event) : bool :=
  match e with ev_save_pvd _ _ => true | _ => false end.

(** The engine calls of a step that runs to its end. *)
Definition step_calls (init : bool) : list CppCall :=
  [ formulate_material_basis_functions_cpp;
    interpolate_material_mass_to_grid_cpp;
    interpolate_material_velocity_to_grid_cpp ]
  ++ (if init then
        [ calculate_material_velocity_gradient_cpp;
          initialize_material_tensors_cpp;
          calculate_grid_volume_cpp;
          calculate_material_density_cpp;
          calculate_material_initial_volume_cpp ]
      else [])
  ++ [ calculate_grid_internal_forces_cpp;
       calculate_grid_acceleration_cpp;
       update_grid_velocity_cpp;
       calculate_material_velocity_gradient_cpp;
       update_material_deformation_gradient_cpp;
       update_material_volume_cpp;
       update_material_stress_cpp;
       interpolate_grid_velocity_to_material_cpp;
       advect_material_particles_cpp ].

(** The milestones of a pass that runs to its end. *)
Definition pass_milestones (t step : Q) : list Event :=
  [ ev_cpp update_material_stress_cpp;
    ev_save_pvd "m" t; ev_save_pvd "U3" t; ev_save_pvd "a3" t;
    ev_save_pvd "f_int" t;
    ev_text "::: ADVECTING MATERIAL PARTICLES :::";
    ev_cpp advect_material_particles_cpp;
    ev_time (t + step)%Q ].

Definition first_material {E : Engine} (self : Model E) : Material :=
  hd (blank_material 0) (materials self).

(** A run that has stopped, by returning or by raising. *)
Definition halted {E : Engine} {A : Type} (r : result E A) : bool :=
  match r with OutOfFuel _ _ => false | _ => true end.

(** *** Concrete models

    [big]: one material of 101 particles of unit mass under a steady shear,
    density 2, time step 1/2.  [small]: the same with a single particle.
    [frozen]: [big] with a zero time step.  [weighed]: [big] once its density
    has been computed.  [warm]: [frozen] after one pass. *)
Definition E0 : Engine := SpecEngine (steady shear 2).
Definition big : Model E0 := cloud shear 2 101 1 (1 # 2).
Definition small : Model E0 := cloud shear 2 1 1 (1 # 2).
Definition frozen : Model E0 := cloud shear 2 101 1 0.
Definition weighed : Model E0 := final (calculate_material_density E0 big).
Definition warm : Model E0 := final (mpm_iteration E0 0 0 frozen).

(* ================================================================== *)
(** ** Frames, mirrors and edge cases: vocabulary                       *)
(* ================================================================== *)

(** [M'] is [M] up to the attributes selected by [K]: the same engine twin,
    and every attribute outside [K] as it was. *)
Definition same_but (K : Attr -> bool) (M M' : Material) : Prop :=
  cpp_mat M' = cpp_mat M /\
  forall k, K k = false -> getattr M' k = getattr M k.

(** A method that, however it ends, leaves [out_dir] and [dt] alone and
    keeps the list of materials, assigning at most the attributes in [K]. *)
Definition touches {E : Engine} {A : Type} (K : Attr -> bool) (m : py E A)
  : Prop :=
  forall self,
    out_dir (final (m self)) = out_dir self /\
    dt (final (m self)) = dt self /\
    Forall2 (same_but K) (materials self) (materials (final (m self))).

(** A loop body that only reads the engine: it completes, leaves [self] as
    it is, logs nothing but [print_min_max] lines and returns [M0] up to
    [K]. *)
Definition reads {E : Engine} (K : Attr -> bool) (M0 : Material)
    (r : py E Material) : Prop :=
  forall self, exists M' l,
    r self = Ok M' self l /\ same_but K M0 M' /\ stages l = [].

Definition no_attr (k : Attr) : bool := false.

(** The attributes a step may assign: never [M.a]; [M.rho] and [M.V0] only
    when it is an initialization step. *)
Definition written (init : bool) (k : Attr) : bool :=
  match k with
  | M_row get_a => false
  | M_col get_rho | M_col get_V0 => init
  | _ => true
  end.

(** The attributes [advect_material_particles] assigns. *)
Definition advected (k : Attr) : bool :=
  match k with
  | M_row get_u_star | M_row get_u | M_row get_x => true
  | _ => false
  end.

Definition only_a (k : Attr) : bool :=
  match k with M_row get_a => true | _ => false end.

(** [arr[100]] exists. *)
Definition has_row_100 (M : Material) (k : Attr) : Prop :=
  exists arr, getattr M k = Some arr /\ getitem arr 100 <> None.

(** The matrix the driver builds from the per-particle getter [r] of the
    engine twin of [M], in the engine state [s]. *)
Definition mirror_rows (E : Engine) (r : Row) (M : Material)
    (s : cpp_state E) : ndarray :=
  array2 (map (get_row E r (cpp_mat M) s)
              (seq 0 (get_num_particles E (cpp_mat M) s))).

(** The times at which the field [name] was saved, in order. *)
Fixpoint save_times (name : string) (l : list Event) : list Q :=
  match l with
  | [] => []
  | ev_save_pvd n t :: l' =>
      if String.eqb n name then t :: save_times name l'
      else save_times name l'
  | _ :: l' => save_times name l'
  end.

Definition saved_fields : list string := ["m"; "U3"; "a3"; "f_int"].

(** An engine none of whose calls throws. *)
Definition never_throws (E : Engine) : Prop :=
  forall c s, exists s', cpp_call E c s = cpp_ok s'.

(** On a model without materials the method completes, still without
    materials, and logs the stages [sc]. *)
Definition unmanned {E : Engine} {A : Type} (m : py E A) (sc : list Event)
  : Prop :=
  forall self, materials self = [] ->
    exists v self' l,
      m self = Ok v self' l /\ materials self' = [] /\ stages l = sc.

(** On a model without materials the method raises [e] after the stages
    [sc]. *)
Definition unmanned_fails {E : Engine} {A : Type} (m : py E A)
    (sc : list Event) (e : exn) : Prop :=
  forall self, materials self = [] ->
    exists self' l, m self = Raise e self' l /\ stages l = sc.

(** What a step logs on a model without materials, up to the failure. *)
Definition unmanned_script (init : bool) (t : Q) : list Event :=
  p2g_script ++ (if init then init_script else []) ++ grid_script
  ++ constitutive_script
  ++ [ ev_save_pvd "m" t; ev_save_pvd "U3" t; ev_save_pvd "a3" t;
       ev_save_pvd "f_int" t ].

(** The attributes the diagnostic lines of [mpm] index. *)
Definition diagnosed (k : Attr) : bool :=
  match k with
  | M_row get_grad_u | M_row get_epsilon | M_row get_sigma => true
  | _ => false
  end.

Definition undiagnosed (k : Attr) : bool := negb (diagnosed k).

Definition only_grad_u (k : Attr) : bool :=
  match k with M_row get_grad_u => true | _ => false end.

Definition stress_attrs (k : Attr) : bool :=
  match k with M_row get_epsilon | M_row get_sigma => true | _ => false end.

(** Every attribute selected by [S] has a row 100. *)
Definition rows (S : Attr -> bool) (M : Material) : Prop :=
  forall k, S k = true -> has_row_100 M k.

(** An engine that, from the states satisfying [J] on, completes every call
    within [J] and reports more than 100 particles for its material [j]. *)
Definition sound_engine (E : Engine) (J : cpp_state E -> Prop) (j : nat)
  : Prop :=
  (forall c s, J s -> exists s', cpp_call E c s = cpp_ok s' /\ J s') /\
  (forall s, J s -> 100 < get_num_particles E j s).

(** A model whose engine is in [J] and whose first material is the twin of
    the engine's material [j], with rows 100 in the attributes [S]. *)
Definition crewed {E : Engine} (J : cpp_state E -> Prop) (j : nat)
    (S : Attr -> bool) (self : Model E) : Prop :=
  J (mpm_cpp self) /\
  exists M Ms, materials self = M :: Ms /\ cpp_mat M = j /\ rows S M.

(** From an engine state in [J] the method completes, stays in [J] and
    assigns at most the attributes [K]. *)
Definition runs {E : Engine} {A : Type} (J : cpp_state E -> Prop)
    (K : Attr -> bool) (m : py E A) : Prop :=
  forall self, J (mpm_cpp self) ->
    exists v self' l,
      m self = Ok v self' l /\ J (mpm_cpp self') /\
      Forall2 (same_but K) (materials self) (materials self').

(** From [P] the method completes in [Q]. *)
Definition hoare {E : Engine} {A : Type} (P : Model E -> Prop) (m : py E A)
    (Q : Model E -> Prop) : Prop :=
  forall self, P self -> exists v self' l, m self = Ok v self' l /\ Q self'.

(** The engine state of [big] and of what follows: 101 particles. *)
Definition full_house (s : cpp_state E0) : Prop :=
  List.length (particles_of 0 s) = 101.

(** [big] after its first pass. *)
Definition seasoned : Model E0 := final (mpm_iteration E0 0 0 big).

(** A model as the constructor leaves it. *)
Definition fresh : Model E0 := fst (Model_init E0 "./output/" blank_grid (1 # 2)).

(* ================================================================== *)
(** ** Facts about logs                                                 *)
(* ================================================================== *)

Lemma stages_app (l1 l2 : list Event) :
  stages (l1 ++ l2) = stages l1 ++ stages l2.
Proof. unfold stages. apply filter_app. Qed.

Lemma count_app (p : Event -> bool) (l1 l2 : list Event) :
  count p (l1 ++ l2) = count p l1 + count p l2.
Proof. unfold count. rewrite filter_app, length_app. reflexivity. Qed.

Lemma cpp_calls_stages (l : list Event) : cpp_calls (stages l) = cpp_calls l.
Proof.
  induction l as [|e l IH]; simpl; [reflexivity|].
  destruct e; simpl; rewrite ?IH; reflexivity.
Qed.

(** Filtering with a test that rejects [print_min_max] lines sees the same
    thing in a log and in its stages. *)
Lemma filter_stages (p : Event -> bool) (l : list Event) :
  (forall e, is_min_max e = true -> p e = false) ->
  filter p (stages l) = filter p l.
Proof.
  intros Hp. induction l as [|e l IH]; simpl; [reflexivity|].
  destruct (is_min_max e) eqn:He; simpl.
  - rewrite (Hp e He). exact IH.
  - rewrite IH. reflexivity.
Qed.

Lemma count_stages (p : Event -> bool) (l : list Event) :
  (forall e, is_min_max e = true -> p e = false) ->
  count p (stages l) = count p l.
Proof. intros Hp. unfold count. rewrite filter_stages; auto. Qed.

Lemma In_stages (e : Event) (l : list Event) :
  In e l -> is_min_max e = true \/ In e (stages l).
Proof.
  intros Hin. destruct (is_min_max e) eqn:He; [left; reflexivity|right].
  unfold stages. apply filter_In. split; [exact Hin|]. rewrite He. reflexivity.
Qed.

Lemma dict_get_set_same (k : Attr) (v : ndarray) (d : dict) :
  dict_get k (dict_set k v d) = Some v.
Proof.
  induction d as [|[k' v'] d IH]; simpl.
  - destruct (Attr_eq_dec k k); [reflexivity|contradiction].
  - destruct (Attr_eq_dec k k') as [H|H]; simpl.
    + destruct (Attr_eq_dec k k); [reflexivity|contradiction].
    + destruct (Attr_eq_dec k k'); [contradiction|exact IH].
Qed.

Lemma dict_get_set_other (k l : Attr) (v : ndarray) (d : dict) :
  l <> k -> dict_get l (dict_set k v d) = dict_get l d.
Proof.
  intros Hne. induction d as [|[k' v'] d IH]; simpl.
  - destruct (Attr_eq_dec l k); [contradiction|reflexivity].
  - destruct (Attr_eq_dec k k') as [H|H]; simpl.
    + subst k'. destruct (Attr_eq_dec l k); [contradiction|reflexivity].
    + destruct (Attr_eq_dec l k'); [reflexivity|exact IH].
Qed.

(** Reading an attribute after an assignment. *)
Lemma getattr_setattr_same (M : Material) (k : Attr) (v : ndarray) :
  getattr (setattr M k v) k = Some v.
Proof. apply dict_get_set_same. Qed.

Lemma getattr_setattr_other (M : Material) (k l : Attr) (v : ndarray) :
  l <> k -> getattr (setattr M k v) l = getattr M l.
Proof. apply dict_get_set_other. Qed.

Lemma strict_prefix_app (l0 l sc : list Event) :
  strict_prefix l sc -> strict_prefix (l0 ++ l) (l0 ++ sc).
Proof.
  intros [rest [Hne Heq]]. exists rest. split; [exact Hne|].
  rewrite Heq, app_assoc. reflexivity.
Qed.

Lemma strict_prefix_weaken (l sc more : list Event) :
  strict_prefix l sc -> strict_prefix l (sc ++ more).
Proof.
  intros [rest [Hne Heq]]. exists (rest ++ more). split.
  - destruct rest; [congruence|discriminate].
  - rewrite Heq, app_assoc. reflexivity.
Qed.

(** A count over a proper beginning is bounded by the count over the whole. *)
Lemma strict_prefix_count (p : Event -> bool) (l sc : list Event) :
  strict_prefix l sc -> count p l <= count p sc.
Proof.
  intros [rest [_ Heq]]. rewrite Heq, count_app. lia.
Qed.

(** If the script ends with its only [p]-event, a proper beginning has none. *)
Lemma strict_prefix_last (p : Event -> bool) (l sc0 : list Event) (e : Event) :
  count p sc0 = 0 -> strict_prefix l (sc0 ++ [e]) -> count p l = 0.
Proof.
  intros H0 [rest [Hne Heq]].
  destruct (exists_last Hne) as [rest' [e' Hr]]. subst rest.
  rewrite app_assoc in Heq. apply app_inj_tail in Heq. destruct Heq as [Heq _].
  rewrite Heq, count_app in H0. lia.
Qed.

(* ================================================================== *)
(** ** Facts about the monad                                            *)
(* ================================================================== *)

Section MonadFacts.

Variable E : Engine.

Lemma quiet_ret {A : Type} (v : A) : quiet (@ret E A v).
Proof. intros self. exists v, self, []. auto. Qed.

Lemma quiet_get_self : quiet (@get_self E).
Proof. intros self. exists self, self, []. auto. Qed.

Lemma quiet_min_max (label : string) : quiet (print_min_max E label).
Proof. intros self. exists tt, self, [ev_min_max label]. auto. Qed.

Lemma quiet_bind {A B : Type} (m : py E A) (f : A -> py E B) :
  quiet m -> (forall v, quiet (f v)) -> quiet (bind m f).
Proof.
  intros Hm Hf self. unfold bind.
  destruct (Hm self) as [v [s1 [l1 [E1 [S1 D1]]]]]. rewrite E1.
  destruct (Hf v s1) as [w [s2 [l2 [E2 [S2 D2]]]]]. rewrite E2.
  exists w, s2, (l1 ++ l2). split; [reflexivity|]. split.
  - rewrite stages_app, S1, S2. reflexivity.
  - congruence.
Qed.

Lemma quiet_set_materials (Ms : list Material) :
  quiet (modify (set_materials E Ms)).
Proof. intros self. exists tt, (set_materials E Ms self), []. auto. Qed.

Lemma quiet_set_grid_model (f : Model E -> GridModel) :
  quiet (modify (fun self => set_grid_model E (f self) self)).
Proof.
  intros self. exists tt, (set_grid_model E (f self) self), []. auto.
Qed.

Lemma quiet_read_rows (r : Row) (k : Attr) (M : Material) :
  quiet (read_rows E r k M).
Proof.
  unfold read_rows. apply quiet_bind; [apply quiet_get_self|].
  intros v. apply quiet_ret.
Qed.

Lemma quiet_read_vrt (M : Material) : quiet (read_vrt E M).
Proof.
  unfold read_vrt. apply quiet_bind; [apply quiet_get_self|].
  intros v. apply quiet_ret.
Qed.

Lemma quiet_read_column (c : Column) (k : Attr) (M : Material) :
  quiet (read_column E c k M).
Proof.
  unfold read_column. apply quiet_bind; [apply quiet_get_self|].
  intros v. apply quiet_ret.
Qed.

Lemma quiet_for_in (body : Material -> py E Material) :
  (forall M, quiet (body M)) ->
  forall todo done, quiet (for_in E done todo body).
Proof.
  intros Hb todo. induction todo as [|M rest IH]; intros done; simpl.
  - apply quiet_ret.
  - apply quiet_bind; [apply Hb|]. intros M'.
    apply quiet_bind; [apply quiet_set_materials|]. intros _. apply IH.
Qed.

Lemma quiet_for_materials (body : Material -> py E Material) :
  (forall M, quiet (body M)) -> quiet (for_materials E body).
Proof.
  intros Hb. unfold for_materials.
  apply quiet_bind; [apply quiet_get_self|]. intros self.
  apply quiet_for_in. exact Hb.
Qed.

Lemma scripted_quiet {A : Type} (m : py E A) : quiet m -> scripted m [].
Proof.
  intros Hm self. destruct (Hm self) as [v [s1 [l1 [E1 [S1 D1]]]]].
  rewrite E1. simpl. auto.
Qed.

Lemma scripted_emit (e : Event) : scripted (@emit E e) (stages [e]).
Proof. intros self. simpl. auto. Qed.

Lemma scripted_call (c : CppCall) : scripted (call E c) [ev_cpp c].
Proof.
  intros self. unfold call.
  destruct (cpp_call E c (mpm_cpp self)); simpl; split; auto.
  exists [ev_cpp c]. split; [discriminate|reflexivity].
Qed.

Lemma scripted_bind {A B : Type} (m : py E A) (f : A -> py E B)
      (s1 s2 : list Event) :
  scripted m s1 -> (forall v, scripted (f v) s2) ->
  scripted (bind m f) (s1 ++ s2).
Proof.
  intros Hm Hf self. unfold bind.
  destruct (Hm self) as [D1 L1].
  destruct (m self) as [v self1 l1|e self1 l1|self1 l1]; simpl in *.
  - destruct (Hf v self1) as [D2 L2].
    destruct (f v self1) as [w self2 l2|e self2 l2|self2 l2]; simpl in *.
    + split; [congruence|]. rewrite stages_app. congruence.
    + split; [congruence|]. rewrite stages_app, L1.
      apply strict_prefix_app. exact L2.
    + contradiction.
  - split; [exact D1|]. apply strict_prefix_weaken. exact L1.
  - contradiction.
Qed.

Lemma scripted_if {A : Type} (b : bool) (m1 m2 : py E A) (s1 s2 : list Event) :
  scripted m1 s1 -> scripted m2 s2 ->
  scripted (if b then m1 else m2) (if b then s1 else s2).
Proof. destruct b; auto. Qed.

Lemma scripted_eq {A : Type} (m : py E A) (s s' : list Event) :
  scripted m s -> s = s' -> scripted m s'.
Proof. intros H <-. exact H. Qed.

Lemma scripted_debug_print (label : string) (k : Attr) :
  scripted (debug_print E label k) [ev_debug label].
Proof.
  intros self. unfold debug_print, bind, get_self.
  assert (P : strict_prefix [] [ev_debug label])
    by (exists [ev_debug label]; split; [discriminate|reflexivity]).
  destruct (materials self) as [|M Ms]; simpl; [auto|].
  destruct (getattr M k) as [arr|]; simpl; [|auto].
  destruct (getitem arr 100); simpl; auto.
Qed.

End MonadFacts.

(* ================================================================== *)
(** ** The script of a step                                             *)
(* ================================================================== *)

Ltac quiet_tac :=
  repeat first
    [ apply quiet_ret | apply quiet_get_self | apply quiet_min_max
    | apply quiet_read_rows | apply quiet_read_vrt | apply quiet_read_column
    | apply quiet_set_grid_model
    | apply quiet_for_materials; intros
    | apply quiet_bind; [|intros] ].

Ltac script_tac :=
  repeat first
    [ apply scripted_quiet; solve [quiet_tac]
    | apply scripted_call | apply scripted_debug_print | apply scripted_emit
    | eapply scripted_if
    | eapply scripted_bind; [|intros] ].

Ltac unfold_methods :=
  unfold mpm_step, advect_material_particles, initialize_material_tensors,
    formulate_material_basis_functions, interpolate_material_mass_to_grid,
    interpolate_material_velocity_to_grid, calculate_material_density,
    calculate_material_initial_volume, calculate_material_velocity_gradient,
    interpolate_grid_velocity_to_material, update_material_volume,
    update_material_deformation_gradient, update_material_stress,
    calculate_grid_internal_forces, update_grid_velocity,
    calculate_grid_acceleration, save_pvd, print_text.

Section StepFacts.

Variable E : Engine.

Lemma mpm_step_scripted (t_start t : Q) :
  scripted (mpm_step E t_start t) (step_script (Qeq_bool t t_start) t).
Proof.
  unfold_methods. eapply scripted_eq; [script_tac|].
  destruct (Qeq_bool t t_start); reflexivity.
Qed.

End StepFacts.

(* ================================================================== *)
(** ** The loop                                                         *)
(* ================================================================== *)

Section LoopFacts.

Variable E : Engine.

(** One pass: all of its script and the new time, or a proper beginning of
    the step's script. *)
Lemma mpm_iteration_run (t_start t : Q) (self : Model E) :
  dt (final (mpm_iteration E t_start t self)) = dt self /\
  match mpm_iteration E t_start t self with
  | Ok t' _ l =>
      t' = (t + dt self)%Q /\
      stages l = iteration_script (Qeq_bool t t_start) t (dt self)
  | Raise _ _ l => strict_prefix (stages l) (step_script (Qeq_bool t t_start) t)
  | OutOfFuel _ _ => False
  end.
Proof.
  unfold mpm_iteration, bind.
  destruct (mpm_step_scripted E t_start t self) as [D L].
  destruct (mpm_step E t_start t self) as [v s1 l1|e s1 l1|s1 l1];
    simpl in *; auto.
  rewrite D. repeat split.
  rewrite stages_app, L. reflexivity.
Qed.

(** The loop, for any fuel: it returns after some [n] complete passes, the
    first [n] tests of [t <= t_end] having succeeded and the next one failed;
    or it raises inside pass [n]; or the fuel is used up by as many complete
    passes. *)
Lemma mpm_while_run (t_start t_end : Q) (fuel : nat) :
  forall (t : Q) (self : Model E),
    dt (final (mpm_while E fuel t_start t_end t self)) = dt self /\
    match mpm_while E fuel t_start t_end t self with
    | Ok t' _ l =>
        exists n, n < fuel /\
          stages l = while_script n t_start t (dt self) /\
          t' = time_at t (dt self) n /\
          (forall k, k < n -> Qle_bool (time_at t (dt self) k) t_end = true) /\
          Qle_bool (time_at t (dt self) n) t_end = false
    | Raise _ _ l =>
        exists n part, n < fuel /\
          stages l = while_script n t_start t (dt self) ++ part /\
          strict_prefix part
            (step_script (Qeq_bool (time_at t (dt self) n) t_start)
                         (time_at t (dt self) n)) /\
          (forall k, k <= n -> Qle_bool (time_at t (dt self) k) t_end = true)
    | OutOfFuel _ l =>
        stages l = while_script fuel t_start t (dt self) /\
        (forall k, k < fuel -> Qle_bool (time_at t (dt self) k) t_end = true)
    end.
Proof.
  induction fuel as [|fuel IH]; intros t self.
  - simpl. repeat split. intros k Hk. lia.
  - simpl. destruct (Qle_bool t t_end) eqn:Hle.
    + unfold bind.
      destruct (mpm_iteration_run t_start t self) as [D1 L1].
      destruct (mpm_iteration E t_start t self) as [t' s1 l1|e s1 l1|s1 l1];
        simpl in *; [| |contradiction].
      * destruct L1 as [Ht' L1]. subst t'.
        rewrite <- D1.
        destruct (IH (t + dt s1)%Q s1) as [D2 L2]. 
        destruct (mpm_while E fuel t_start t_end (t + dt s1)%Q s1)
          as [t2 s2 l2|e s2 l2|s2 l2]; simpl in *.
        -- split; [exact D2|].
           destruct L2 as [n [Hn [Hs [Ht [Hk Hend]]]]].
           exists (S n). repeat split; try lia; simpl.
           ++ rewrite stages_app, L1, Hs, D1. reflexivity.
           ++ exact Ht.
           ++ intros [|k] Hlt; simpl; [exact Hle|]. apply Hk. lia.
           ++ exact Hend.
        -- split; [exact D2|].
           destruct L2 as [n [part [Hn [Hs [Hp Hk]]]]].
           exists (S n), part. repeat split; try lia; simpl.
           ++ rewrite stages_app, L1, Hs, D1, app_assoc. reflexivity.
           ++ exact Hp.
           ++ intros [|k] Hlt; simpl; [exact Hle|]. apply Hk. lia.
        -- split; [exact D2|].
           destruct L2 as [Hs Hk]. split.
           ++ rewrite stages_app, L1, Hs, D1. reflexivity.
           ++ intros [|k] Hlt; simpl; [exact Hle|]. apply Hk. lia.
      * split; [exact D1|].
        exists 0, (stages l1). repeat split; try lia; simpl; auto.
        intros k Hk. replace k with 0 by lia. exact Hle.
    + simpl. split; [reflexivity|].
      exists 0. repeat split; try lia; simpl; auto.
Qed.

(** The same for [mpm], with its first and last lines. *)
Lemma mpm_run (t_start t_end : Q) (fuel : nat) (self : Model E) :
  dt (final (mpm E fuel t_start t_end self)) = dt self /\
  match mpm E fuel t_start t_end self with
  | Ok t' _ l =>
      exists n, n < fuel /\
        stages l = mpm_script n t_start (dt self) /\
        t' = time_at t_start (dt self) n /\
        (forall k, k < n ->
           Qle_bool (time_at t_start (dt self) k) t_end = true) /\
        Qle_bool (time_at t_start (dt self) n) t_end = false
  | Raise _ _ l =>
      exists n part, n < fuel /\
        stages l = prologue ++ while_script n t_start t_start (dt self) ++ part /\
        strict_prefix part
          (step_script (Qeq_bool (time_at t_start (dt self) n) t_start)
                       (time_at t_start (dt self) n)) /\
        (forall k, k <= n ->
           Qle_bool (time_at t_start (dt self) k) t_end = true)
  | OutOfFuel _ l =>
      stages l = prologue ++ while_script fuel t_start t_start (dt self) /\
      (forall k, k < fuel ->
         Qle_bool (time_at t_start (dt self) k) t_end = true)
  end.
Proof.
  unfold mpm, print_text, bind, emit. 
  destruct (mpm_while_run t_start t_end fuel t_start self) as [D L].
  destruct (mpm_while E fuel t_start t_end t_start self)
    as [t' s1 l1|e s1 l1|s1 l1]; simpl in *; (split; [exact D|]).
  - destruct L as [n [Hn [Hs [Ht [Hk Hend]]]]].
    exists n. repeat split; auto.
    unfold mpm_script, prologue. simpl. rewrite stages_app, Hs. reflexivity.
  - destruct L as [n [part [Hn [Hs [Hp Hk]]]]].
    exists n, part. repeat split; auto.
    unfold prologue. simpl. rewrite Hs. reflexivity.
  - destruct L as [Hs Hk]. split; auto.
    unfold prologue. simpl. rewrite Hs. reflexivity.
Qed.

End LoopFacts.

(* ================================================================== *)
(** ** The times of the loop                                            *)
(* ================================================================== *)

Section Times.

Local Open Scope Q_scope.

Lemma time_at_eq (step : Q) (k : nat) :
  forall t, time_at t step k == t + inject_Z (Z.of_nat k) * step.
Proof.
  induction k as [|k IH]; intros t.
  - simpl. ring.
  - change (time_at t step (S k)) with (time_at (t + step) step k).
    rewrite IH, Nat2Z.inj_succ. unfold Z.succ. rewrite inject_Z_plus. ring.
Qed.

Lemma int_le_floor (z : Z) (q : Q) : inject_Z z <= q <-> (z <= Qfloor q)%Z.
Proof.
  split; intros H.
  - rewrite <- (Qfloor_Z z). apply Qfloor_resp_le. exact H.
  - apply Qle_trans with (inject_Z (Qfloor q)); [|apply Qfloor_le].
    rewrite <- Zle_Qle. exact H.
Qed.

Lemma scaled_le_iff (c step d : Q) : 0 < step -> (c * step <= d <-> c <= d / step).
Proof.
  intros Hs. split; intros H.
  - apply Qle_shift_div_l; assumption.
  - assert (Hne : ~ step == 0) by (intros Hz; rewrite Hz in Hs; discriminate).
    rewrite <- (Qmult_div_r d step Hne), (Qmult_comm step).
    apply Qmult_le_compat_r; [exact H|]. apply Qlt_le_weak. exact Hs.
Qed.

(** With a positive step, the test [t <= t_end] succeeds at exactly the
    first [n_steps] values of [t]. *)
Lemma time_at_le (t t_end step : Q) (k : nat) :
  0 < step ->
  (Qle_bool (time_at t step k) t_end = true <-> (k < n_steps t t_end step)%nat).
Proof.
  intros Hs. rewrite Qle_bool_iff, time_at_eq. unfold n_steps.
  destruct (Qle_bool t t_end) eqn:Hle.
  - apply Qle_bool_iff in Hle.
    assert (H0 : (0 <= Qfloor ((t_end - t) / step))%Z).
    { apply int_le_floor. apply Qle_shift_div_l; [exact Hs|].
      rewrite Qmult_0_l. lra. }
    assert (Hk : t + inject_Z (Z.of_nat k) * step <= t_end
                 <-> inject_Z (Z.of_nat k) * step <= t_end - t)
      by (split; intros; lra).
    rewrite Hk, scaled_le_iff, int_le_floor by exact Hs. lia.
  - assert (Hgt : t_end < t).
    { apply Qnot_le_lt. intros H. apply Qle_bool_iff in H. congruence. }
    split; [|lia]. intros H.
    assert (0 <= inject_Z (Z.of_nat k) * step).
    { apply Qmult_le_0_compat; [|lra].
      change 0 with (inject_Z 0). rewrite <- Zle_Qle. lia. }
    lra.
Qed.

Lemma n_steps_positive (t_start t_end step : Q) :
  t_start <= t_end -> (1 <= n_steps t_start t_end step)%nat.
Proof.
  intros H. unfold n_steps. apply Qle_bool_iff in H. rewrite H. lia.
Qed.

Lemma n_steps_one (t_start t_end step : Q) :
  0 < step -> t_start == t_end -> n_steps t_start t_end step = 1%nat.
Proof.
  intros Hs Heq. unfold n_steps.
  assert (H : Qle_bool t_start t_end = true) by (apply Qle_bool_iff; lra).
  rewrite H.
  assert (Hz : (t_end - t_start) / step == 0).
  { assert (Hd : t_end - t_start == 0) by lra. rewrite Hd.
    unfold Qdiv. ring. }
  rewrite Hz. reflexivity.
Qed.

(** With a positive step, every later value of [t] differs from [t_start]. *)
Lemma time_at_later (t_start step : Q) (k : nat) :
  0 < step -> Qeq_bool (time_at (t_start + step) step k) t_start = false.
Proof.
  intros Hs. destruct (Qeq_bool _ _) eqn:H; [|reflexivity].
  apply Qeq_bool_iff in H. rewrite time_at_eq in H.
  assert (0 <= inject_Z (Z.of_nat k) * step).
  { apply Qmult_le_0_compat; [|lra].
    change 0 with (inject_Z 0). rewrite <- Zle_Qle. lia. }
  lra.
Qed.

(** With a step that is not positive, [t] never passes a bound it starts
    below. *)
Lemma time_at_stuck (t t_end step : Q) (k : nat) :
  step <= 0 -> t <= t_end -> Qle_bool (time_at t step k) t_end = true.
Proof.
  intros Hs Hle. apply Qle_bool_iff. rewrite time_at_eq.
  assert (0 <= inject_Z (Z.of_nat k) * - step).
  { apply Qmult_le_0_compat; [|lra].
    change 0 with (inject_Z 0). rewrite <- Zle_Qle. lia. }
  lra.
Qed.

End Times.

(* ================================================================== *)
(** ** The order of the stages                                          *)
(* ================================================================== *)

Section Order.

Variable E : Engine.

(** C2, as amended.  A step that runs to its end makes exactly these engine
    calls in this order: basis, P2G mass, P2G velocity; then, if and only if
    [t == t_start], the initialization block, in the order tensor
    initialization (preceded by its velocity gradient), density (preceded by
    the grid volume), initial volume; then the grid internal forces and the
    regular stages. *)
Theorem init_block_order (t_start t : Q) (self self' : Model E)
    (l : list Event) :
  mpm_step E t_start t self = Ok tt self' l ->
  cpp_calls l = step_calls (Qeq_bool t t_start).
Proof.
  intros H. destruct (mpm_step_scripted E t_start t self) as [_ L].
  rewrite H in L. rewrite <- cpp_calls_stages, L.
  destruct (Qeq_bool t t_start); reflexivity.
Qed.

(** C5, as amended.  In a pass that runs to its end the four snapshots are
    written after the stress update and before particle advection, stamped
    with the time [t] of the pass; [t] is advanced after advection. *)
Theorem snapshot_before_advection (t_start t t' : Q) (self self' : Model E)
    (l : list Event) :
  mpm_iteration E t_start t self = Ok t' self' l ->
  filter is_milestone l = pass_milestones t (dt self) /\
  t' = (t + dt self)%Q.
Proof.
  intros H. destruct (mpm_iteration_run E t_start t self) as [_ L].
  rewrite H in L. destruct L as [Ht L]. split; [|exact Ht].
  rewrite <- filter_stages by (intros [] He; try discriminate; reflexivity).
  rewrite L. destruct (Qeq_bool t t_start); reflexivity.
Qed.

End Order.

(** The step of [big] at [t = t_start = 0] runs to its end and its engine
    calls are those of an initialization step. *)
Lemma init_block_order_witness :
  cpp_calls (log_of (mpm_step E0 0 0 big)) = step_calls (Qeq_bool 0 0).
Proof.
  apply (init_block_order E0 0 0 big (final (mpm_step E0 0 0 big))).
  vm_compute. reflexivity.
Defined.

(** C2 as stated fails: in the initialization step of [big] the initial
    volume does not come before the tensor initialization; the tensor
    initialization comes first, before the density. *)
Lemma init_order_as_claimed_fails :
  completed (mpm_step E0 0 0 big) = true /\
  precedes (is_cpp calculate_material_initial_volume_cpp)
           (is_cpp initialize_material_tensors_cpp)
           (log_of (mpm_step E0 0 0 big)) = false /\
  precedes (is_cpp initialize_material_tensors_cpp)
           (is_cpp calculate_material_density_cpp)
           (log_of (mpm_step E0 0 0 big)) = true.
Proof. vm_compute. auto. Qed.

(** The first pass of [big] runs to its end, with these milestones. *)
Lemma snapshot_before_advection_witness :
  filter is_milestone (log_of (mpm_iteration E0 0 0 big))
  = pass_milestones 0 (dt big).
Proof.
  assert (H : mpm_iteration E0 0 0 big
              = Ok (1 # 2)%Q (final (mpm_iteration E0 0 0 big))
                   (log_of (mpm_iteration E0 0 0 big)))
    by (vm_compute; reflexivity).
  exact (proj1 (snapshot_before_advection E0 0 0 _ big _ _ H)).
Defined.

(** C5 as stated fails: in the first pass of [big] no snapshot comes after
    particle advection or after the advance of time; they all come before. *)
Lemma snapshot_after_advection_fails :
  completed (mpm_iteration E0 0 0 big) = true /\
  precedes (is_cpp advect_material_particles_cpp) is_save
           (log_of (mpm_iteration E0 0 0 big)) = false /\
  precedes is_time is_save (log_of (mpm_iteration E0 0 0 big)) = false /\
  precedes is_save (is_cpp advect_material_particles_cpp)
           (log_of (mpm_iteration E0 0 0 big)) = true.
Proof. vm_compute. auto. Qed.

(* ================================================================== *)
(** ** Whole runs                                                       *)
(* ================================================================== *)

Lemma is_cpp_not_min_max (c : CppCall) (e : Event) :
  is_min_max e = true -> is_cpp c e = false.
Proof. destruct e; simpl; intros H; try discriminate; reflexivity. Qed.

Lemma G2P_acceleration_not_min_max (e : Event) :
  is_min_max e = true -> is_G2P_acceleration e = false.
Proof. destruct e; simpl; intros H; try discriminate; reflexivity. Qed.

(** A test that no pass script satisfies is satisfied nowhere in the script
    of the loop. *)
Lemma while_script_count_0 (p : Event -> bool) (t_start step : Q) :
  (forall b t, count p (iteration_script b t step) = 0) ->
  forall n t, count p (while_script n t_start t step) = 0.
Proof.
  intros Hp n. induction n as [|n IH]; intros t; cbn [while_script];
    [reflexivity|].
  rewrite count_app, Hp, IH. reflexivity.
Qed.

(** After the first pass, with a positive step, no pass is an initialization
    pass. *)
Lemma while_script_later (p : Event -> bool) (t_start step : Q) :
  (0 < step)%Q ->
  (forall t, count p (iteration_script false t step) = 0) ->
  forall n t, (t_start < t)%Q -> count p (while_script n t_start t step) = 0.
Proof.
  intros Hs Hp n. induction n as [|n IH]; intros t Ht; cbn [while_script];
    [reflexivity|].
  assert (Hb : Qeq_bool t t_start = false).
  { destruct (Qeq_bool t t_start) eqn:Hb; [|reflexivity].
    apply Qeq_bool_iff in Hb. lra. }
  rewrite Hb, count_app, Hp, IH by lra. reflexivity.
Qed.

Lemma while_script_Forall (P : Event -> Prop) (t_start step : Q) :
  (forall b t, Forall P (iteration_script b t step)) ->
  forall n t, Forall P (while_script n t_start t step).
Proof.
  intros HP n. induction n as [|n IH]; intros t; cbn [while_script];
    [constructor|].
  apply Forall_app. split; [apply HP|apply IH].
Qed.

(** With a positive step, the number of passes of a run that returns is
    [n_steps]. *)
Lemma steps_unique (t t_end step : Q) (n : nat) :
  (0 < step)%Q ->
  (forall k, k < n -> Qle_bool (time_at t step k) t_end = true) ->
  Qle_bool (time_at t step n) t_end = false ->
  n = n_steps t t_end step.
Proof.
  intros Hs Hk Hn.
  destruct (Nat.lt_trichotomy n (n_steps t t_end step)) as [H|[H|H]].
  - apply (time_at_le t t_end step n Hs) in H. congruence.
  - exact H.
  - specialize (Hk _ H). apply (time_at_le t t_end step _ Hs) in Hk. lia.
Qed.

Section Runs.

Variable E : Engine.

(** More fuel does not change a run that has stopped. *)
Lemma mpm_while_more_fuel (t_start t_end : Q) (fuel : nat) :
  forall (t : Q) (self : Model E),
    halted (mpm_while E fuel t_start t_end t self) = true ->
    forall k,
      mpm_while E (k + fuel) t_start t_end t self
      = mpm_while E fuel t_start t_end t self.
Proof.
  induction fuel as [|fuel IH]; intros t self H k.
  - discriminate H.
  - rewrite Nat.add_succ_r. simpl in *.
    destruct (Qle_bool t t_end); [|reflexivity].
    unfold bind in *.
    destruct (mpm_iteration E t_start t self) as [t' s1 l1|e s1 l1|s1 l1];
      try reflexivity.
    rewrite IH; [reflexivity|].
    destruct (mpm_while E fuel t_start t_end t' s1); simpl in *; congruence.
Qed.

Lemma mpm_more_fuel (t_start t_end : Q) (fuel : nat) (self : Model E) :
  halted (mpm E fuel t_start t_end self) = true ->
  forall k,
    mpm E (k + fuel) t_start t_end self = mpm E fuel t_start t_end self.
Proof.
  intros H k. unfold mpm, print_text, bind, emit in *. simpl in *.
  rewrite mpm_while_more_fuel; [reflexivity|].
  destruct (mpm_while E fuel t_start t_end t_start self); simpl in *;
    congruence.
Qed.

(** A pass that returns to the very time and object it started from, with
    the loop test true, is repeated for ever. *)
Lemma loop_forever (t_start t_end t : Q) (self : Model E) (l : list Event) :
  Qle_bool t t_end = true ->
  mpm_iteration E t_start t self = Ok t self l ->
  forall fuel, halted (mpm_while E fuel t_start t_end t self) = false.
Proof.
  intros Hle Hit fuel. induction fuel as [|fuel IH]; [reflexivity|].
  cbn [mpm_while]. rewrite Hle. unfold bind. rewrite Hit.
  destruct (mpm_while E fuel t_start t_end t self); simpl in *; congruence.
Qed.

Lemma mpm_forever (t_start t_end t' : Q) (self self' : Model E)
      (l : list Event) :
  Qle_bool t_start t_end = true ->
  mpm_iteration E t_start t_start self = Ok t' self' l ->
  (forall fuel, halted (mpm_while E fuel t_start t_end t' self') = false) ->
  forall fuel, halted (mpm E fuel t_start t_end self) = false.
Proof.
  intros Hle Hit Hrest fuel. unfold mpm, print_text, bind, emit.
  destruct fuel as [|fuel]; [reflexivity|].
  cbn [mpm_while]. rewrite Hle. unfold bind. rewrite Hit.
  specialize (Hrest fuel).
  destruct (mpm_while E fuel t_start t_end t' self'); simpl in *; congruence.
Qed.

(** C3: the code, in any run.  Neither [Model]'s own
    [interpolate_grid_acceleration_to_material] nor an engine call of that
    name is ever made, whatever the engine, the model and the times; the claim
    (and the docstring of [advect_material_particles]) has it before every
    advection. *)
Theorem acceleration_never_interpolated (fuel : nat) (t_start t_end : Q)
    (self : Model E) :
  count is_G2P_acceleration (log_of (mpm E fuel t_start t_end self)) = 0.
Proof.
  rewrite <- count_stages by apply G2P_acceleration_not_min_max.
  assert (Hit : forall b t step,
             count is_G2P_acceleration (iteration_script b t step) = 0)
    by (intros [] t step; reflexivity).
  assert (Hst : forall b t, count is_G2P_acceleration (step_script b t) = 0)
    by (intros [] t; reflexivity).
  destruct (mpm_run E t_start t_end fuel self) as [_ L].
  destruct (mpm E fuel t_start t_end self) as [t' s l|e s l|s l]; simpl.
  - destruct L as [n [_ [Hs _]]]. rewrite Hs. unfold mpm_script.
    rewrite !count_app, while_script_count_0 by (intros; apply Hit).
    reflexivity.
  - destruct L as [n [part [_ [Hs [Hp _]]]]]. rewrite Hs.
    rewrite !count_app, while_script_count_0 by (intros; apply Hit).
    pose proof (strict_prefix_count is_G2P_acceleration _ _ Hp) as Hc.
    rewrite Hst in Hc. simpl. lia.
  - destruct L as [Hs _]. rewrite Hs.
    rewrite !count_app, while_script_count_0 by (intros; apply Hit).
    reflexivity.
Qed.

End Runs.

Section InitOnly.

(** A stage that is logged once by an initialization pass and never by
    another pass. *)
Variable E : Engine.
Variable p : Event -> bool.
Hypothesis p_not_min_max : forall e, is_min_max e = true -> p e = false.
Hypothesis p_init_pass : forall t step, count p (iteration_script true t step) = 1.
Hypothesis p_later_pass : forall t step, count p (iteration_script false t step) = 0.
Hypothesis p_init_step : forall t, count p (step_script true t) = 1.
Hypothesis p_later_step : forall t, count p (step_script false t) = 0.
Hypothesis p_prologue : count p prologue = 0.
Hypothesis p_epilogue :
  count p [ev_text "total time to perform transient run"] = 0.

Lemma Qeq_bool_same (q : Q) : Qeq_bool q q = true.
Proof. apply Qeq_bool_iff. reflexivity. Qed.

Lemma init_only_while (t_start step : Q) (n : nat) :
  (0 < step)%Q ->
  count p (while_script (S n) t_start t_start step) = 1 /\
  exists rest,
    while_script (S n) t_start t_start step
    = iteration_script true t_start step ++ rest /\ count p rest = 0.
Proof.
  intros Hs. cbn [while_script]. rewrite Qeq_bool_same.
  assert (H0 : count p (while_script n t_start (t_start + step) step) = 0)
    by (apply while_script_later; [exact Hs|intros; apply p_later_pass|lra]).
  split.
  - rewrite count_app, p_init_pass, H0. reflexivity.
  - eexists. split; [reflexivity|exact H0].
Qed.

Lemma init_only_run (fuel : nat) (t_start t_end : Q) (self : Model E) :
  (0 < dt self)%Q ->
  (t_start <= t_end)%Q ->
  count p (log_of (mpm E fuel t_start t_end self)) <= 1 /\
  (completed (mpm E fuel t_start t_end self) = true ->
   count p (log_of (mpm E fuel t_start t_end self)) = 1 /\
   exists rest,
     stages (log_of (mpm E fuel t_start t_end self))
     = prologue ++ iteration_script true t_start (dt self) ++ rest /\
     count p rest = 0).
Proof.
  intros Hs Hle. rewrite <- count_stages by exact p_not_min_max.
  destruct (mpm_run E t_start t_end fuel self) as [_ L].
  destruct (mpm E fuel t_start t_end self) as [t' s l|e s l|s l]; simpl.
  - destruct L as [n [_ [Hl [_ [Hk Hend]]]]].
    assert (Hn : n = n_steps t_start t_end (dt self))
      by (apply steps_unique; assumption).
    pose proof (n_steps_positive t_start t_end (dt self) Hle) as Hpos.
    destruct n as [|n]; [lia|].
    destruct (init_only_while t_start (dt self) n Hs) as [Hc [rest [Hr Hr0]]].
    assert (Hone : count p (stages l) = 1).
    { rewrite Hl. unfold mpm_script.
      rewrite !count_app, p_prologue, Hc, p_epilogue. reflexivity. }
    split; [lia|]. intros _. split; [exact Hone|].
    exists (rest ++ [ev_text "total time to perform transient run"]). split.
    + rewrite Hl. unfold mpm_script. rewrite Hr, <- app_assoc. reflexivity.
    + rewrite count_app, Hr0, p_epilogue. reflexivity.
  - split; [|discriminate].
    destruct L as [n [part [_ [Hl [Hp _]]]]]. rewrite Hl.
    rewrite !count_app, p_prologue.
    pose proof (strict_prefix_count p _ _ Hp) as Hc.
    destruct n as [|n].
    + simpl in Hc. rewrite Qeq_bool_same, p_init_step in Hc.
      cbn [while_script]. unfold count at 1. simpl. lia.
    + change (time_at t_start (dt self) (S n))
        with (time_at (t_start + dt self) (dt self) n) in Hc.
      rewrite time_at_later, p_later_step in Hc by exact Hs.
      destruct (init_only_while t_start (dt self) n Hs) as [Hw _].
      rewrite Hw. lia.
  - split; [|discriminate].
    destruct L as [Hl _]. rewrite Hl. rewrite !count_app, p_prologue.
    destruct fuel as [|fuel]; [unfold count; simpl; lia|].
    destruct (init_only_while t_start (dt self) fuel Hs) as [Hw _].
    rewrite Hw. lia.
Qed.

End InitOnly.

Section Claims.

Variable E : Engine.

(** With a positive step the loop stops within [n_steps] passes. *)
Lemma mpm_halts (fuel : nat) (t_start t_end : Q) (self : Model E) :
  (0 < dt self)%Q ->
  n_steps t_start t_end (dt self) < fuel ->
  halted (mpm E fuel t_start t_end self) = true.
Proof.
  intros Hs Hf. destruct (mpm_run E t_start t_end fuel self) as [_ L].
  destruct (mpm E fuel t_start t_end self); simpl; try reflexivity.
  destruct L as [_ Hk]. specialize (Hk _ Hf).
  apply (time_at_le t_start t_end (dt self) _ Hs) in Hk. lia.
Qed.




End Claims.

(* ================================================================== *)
(** ** Errors and the two-dimensional interface                         *)
(* ================================================================== *)

Lemma step_script_ends_with_advection (b : bool) (t : Q) :
  step_script b t
  = removelast (step_script b t) ++ [ev_cpp advect_material_particles_cpp]
  /\ count (is_cpp advect_material_particles_cpp)
       (removelast (step_script b t)) = 0.
Proof. destruct b; split; reflexivity. Qed.

Lemma two_dimensional_log (l sc : list Event) :
  (exists rest, sc = stages l ++ rest) ->
  Forall two_dimensional sc -> Forall two_dimensional l.
Proof.
  intros [rest Hsc] HF. rewrite Forall_forall in *. intros e He.
  destruct (In_stages e l He) as [Hm|Hs].
  - destruct e; simpl in *; try discriminate; exact I.
  - apply HF. rewrite Hsc. apply in_or_app. left. exact Hs.
Qed.

Lemma iteration_script_two_dimensional (b : bool) (t step : Q) :
  Forall two_dimensional (iteration_script b t step).
Proof.
  destruct b; repeat (apply Forall_cons; [simpl; auto|]); apply Forall_nil.
Qed.

Lemma step_script_two_dimensional (b : bool) (t : Q) :
  Forall two_dimensional (step_script b t).
Proof.
  destruct b; repeat (apply Forall_cons; [simpl; auto|]); apply Forall_nil.
Qed.

Section Interface.

Variable E : Engine.



End Interface.

(* ================================================================== *)
(** ** The constitutive updater behind the driver                       *)
(* ================================================================== *)

Section Readers.

Variable E : Engine.

(** A loop whose body only reads the engine replaces every material [M] by
    [g M], [g] depending on the engine state alone. *)
Lemma for_in_readers (body : Material -> py E Material)
      (g : cpp_state E -> Material -> Material) :
  (forall M self, exists l, body M self = Ok (g (mpm_cpp self) M) self l) ->
  forall todo done self,
    materials self = done ++ todo ->
    exists self' l,
      for_in E done todo body self = Ok tt self' l /\
      mpm_cpp self' = mpm_cpp self /\
      materials self' = done ++ map (g (mpm_cpp self)) todo.
Proof.
  intros Hb todo. induction todo as [|M rest IH]; intros done self Hm.
  - exists self, []. simpl. auto.
  - simpl. unfold bind. destruct (Hb M self) as [l1 E1]. rewrite E1. simpl.
    destruct (IH (done ++ [g (mpm_cpp self) M])
                 (set_materials E (done ++ g (mpm_cpp self) M :: rest) self))
      as [self' [l2 [E2 [C2 M2]]]].
    { simpl. rewrite <- app_assoc. reflexivity. }
    rewrite E2. exists self'. eexists. split; [reflexivity|]. split.
    + exact C2.
    + rewrite M2. simpl. rewrite <- app_assoc. reflexivity.
Qed.

Lemma for_materials_readers (body : Material -> py E Material)
      (g : cpp_state E -> Material -> Material) :
  (forall M self, exists l, body M self = Ok (g (mpm_cpp self) M) self l) ->
  forall self,
    exists self' l,
      for_materials E body self = Ok tt self' l /\
      mpm_cpp self' = mpm_cpp self /\
      materials self' = map (g (mpm_cpp self)) (materials self).
Proof.
  intros Hb self. unfold for_materials, bind, get_self.
  destruct (for_in_readers body g Hb (materials self) [] self eq_refl)
    as [self' [l [E1 [C1 M1]]]].
  rewrite E1. exists self'. eexists. auto.
Qed.

End Readers.

Section Constitutive.

Variable C : Collab.

Lemma map_snd_combine {A B D : Type} (h : B -> D) (l2 : list B) :
  forall l1 : list A,
    List.length l1 = List.length l2 ->
    map (fun ab => h (snd ab)) (combine l1 l2) = map h l2.
Proof.
  induction l2 as [|b l2 IH]; intros [|a l1] H; simpl in *;
    try discriminate; try reflexivity.
  rewrite IH by lia. reflexivity.
Qed.

Lemma for_particles_uniform (h : Particle -> Particle)
      (ps : list (list Particle)) :
  for_particles (fun _ _ => h) ps = map (map h) ps.
Proof.
  unfold for_particles.
  rewrite (map_snd_combine
             (fun m => map (fun ip => h (snd ip))
                           (combine (seq 0 (List.length m)) m)))
    by apply length_seq.
  apply map_ext. intros m. apply map_snd_combine, length_seq.
Qed.

Lemma nth_map_map (h : Particle -> Particle) (ps : list (list Particle))
      (j : nat) :
  nth j (map (map h) ps) [] = map h (nth j ps []).
Proof. exact (map_nth (map h) ps [] j). Qed.

(** C4.  After [calculate_material_initial_volume], for every material the
    driver's [M.V] holds [m_p / rho_p] for each of its particles and [M.V0]
    is that same array; so are the engine's own [V] and [V0]. *)
Theorem initial_volume_is_mass_over_density
    (self self' : Model (SpecEngine C)) (l : list Event) :
  calculate_material_initial_volume (SpecEngine C) self = Ok tt self' l ->
  List.length (materials self') = List.length (materials self) /\
  forall M', In M' (materials self') ->
    let before := particles_of (cpp_mat M') (mpm_cpp self) in
    let after := particles_of (cpp_mat M') (mpm_cpp self') in
    getattr M' (M_col get_V)
    = Some (array1 (map (fun p => (p_m p / p_rho p)%Q) before)) /\
    getattr M' (M_col get_V0) = getattr M' (M_col get_V) /\
    map p_V after = map (fun p => (p_m p / p_rho p)%Q) before /\
    map p_V0 after = map p_V after.
Proof.
  unfold calculate_material_initial_volume, print_text.
  unfold bind at 1 2. unfold emit at 1. unfold call.
  cbn [cpp_call SpecEngine]. unfold spec_call.
  destruct (co_call C calculate_material_initial_volume_cpp
              (sp_particles (mpm_cpp self)) (sp_rest (mpm_cpp self)))
    as [r|e r]; [|discriminate].
  set (g := fun (s : cpp_state (SpecEngine C)) (M : Material) =>
              setattr
                (setattr M (M_col get_V0)
                   (array1 (get_column (SpecEngine C) get_V (cpp_mat M) s)))
                (M_col get_V)
                (array1 (get_column (SpecEngine C) get_V0 (cpp_mat M) s))).
  match goal with
  | |- context [for_materials _ ?b ?s] =>
      destruct (for_materials_readers (SpecEngine C) b g
                  ltac:(intros; eexists; reflexivity) s)
        as [s1 [l1 [E1 [C1 M1]]]]
  end.
  rewrite E1. intros H. injection H as <- _.
  rewrite M1. split; [apply length_map|].
  intros M' HM'. apply in_map_iff in HM'. destruct HM' as [M [<- _]].
  rewrite C1. unfold g.
  rewrite getattr_setattr_same, getattr_setattr_other, getattr_setattr_same
    by discriminate.
  cbn [cpp_mat setattr mpm_cpp set_mpm_cpp].
  cbn [get_column SpecEngine]. unfold spec_get_column, particles_of.
  cbn [constitutive sp_particles set_particles set_rest].
  rewrite for_particles_uniform, nth_map_map, !map_map.
  cbn [calculate_initial_volume p_V p_V0].
  auto.
Qed.

End Constitutive.

(* ================================================================== *)
(** ** Concrete runs                                                    *)
(* ================================================================== *)

(** C1: the code at a concrete input.  One step of [big] (steady shear,
    [dt = 1/2], so [dF = [[1, 1/2], [1/2, 1]]] and [det dF = 3/4]) returns
    with [V0 = 1/2], [V = 3/8] and [det F = 15/16] for every particle: the
    incremental volume [det(dF) V0 = 3/8] and [det(F) V0 = 15/32] disagree. *)
Theorem volume_identity_fails :
  let r := mpm E0 2 0 0 big in
  let M := first_material (final r) in
  completed r = true /\
  forallb (fun i => negb (volume_consistent M i)) (seq 0 101) = true /\
  option_map (Qeq_bool (3 # 8)) (scalar_at M (M_col get_V) 0) = Some true /\
  option_map (Qeq_bool (1 # 2)) (scalar_at M (M_col get_V0) 0) = Some true /\
  option_map (fun f => Qeq_bool (15 # 16) (det_flat f))
             (row_at M (M_row get_F) 0) = Some true.
Proof. vm_compute. auto. Qed.

(** The initial volume of [weighed]: 1/2 for each of the 101 particles. *)
Lemma initial_volume_witness :
  getattr (first_material (final (calculate_material_initial_volume E0 weighed)))
          (M_col get_V)
  = Some (array1 (map (fun p => (p_m p / p_rho p)%Q)
                      (particles_of 0 (mpm_cpp weighed))))
  /\
  getattr (first_material (final (calculate_material_initial_volume E0 weighed)))
          (M_col get_V0)
  = getattr (first_material (final (calculate_material_initial_volume E0 weighed)))
            (M_col get_V)
  /\
  map p_rho (particles_of 0 (mpm_cpp weighed)) = repeat (2 : Q) 101.
Proof.
  assert (H : calculate_material_initial_volume E0 weighed
              = Ok tt (final (calculate_material_initial_volume E0 weighed))
                   (log_of (calculate_material_initial_volume E0 weighed)))
    by (vm_compute; reflexivity).
  assert (Hin : In (first_material
                      (final (calculate_material_initial_volume E0 weighed)))
                   (materials
                      (final (calculate_material_initial_volume E0 weighed))))
    by (left; reflexivity).
  destruct (proj2 (initial_volume_is_mass_over_density
                     (steady shear 2) weighed _ _ H) _ Hin)
    as [HV [HV0 _]].
  split; [exact HV|]. split; [exact HV0|]. vm_compute. reflexivity.
Defined.







(** A run that never stops and never raises: with a zero time step every
    pass of [frozen] is the initialization pass at [t = 0], and from the
    second pass on it leaves the model as it found it. *)
Lemma frozen_never_stops :
  forall fuel, halted (mpm E0 fuel 0 1 frozen) = false.
Proof.
  apply (mpm_forever E0 0 1 0 frozen warm
           (log_of (mpm_iteration E0 0 0 frozen))).
  - reflexivity.
  - vm_compute. reflexivity.
  - apply (loop_forever E0 0 1 0 warm (log_of (mpm_iteration E0 0 0 warm))).
    + reflexivity.
    + vm_compute. reflexivity.
Qed.

(* ================================================================== *)
(** ** The frame of the methods                                         *)
(* ================================================================== *)

Lemma same_but_refl (K : Attr -> bool) (M : Material) : same_but K M M.
Proof. split; auto. Qed.

Lemma same_but_trans (K : Attr -> bool) (M1 M2 M3 : Material) :
  same_but K M1 M2 -> same_but K M2 M3 -> same_but K M1 M3.
Proof.
  intros [H1 A1] [H2 A2]. split; [congruence|].
  intros k Hk. rewrite A2, A1 by exact Hk. reflexivity.
Qed.

Lemma same_but_setattr (K : Attr -> bool) (M0 M : Material) (k : Attr)
      (v : ndarray) :
  same_but K M0 M -> K k = true -> same_but K M0 (setattr M k v).
Proof.
  intros [H1 A1] Hk. split; [exact H1|].
  intros l Hl. rewrite getattr_setattr_other; [apply A1; exact Hl|].
  intros ->. congruence.
Qed.

Lemma same_but_weaken (K K' : Attr -> bool) (M M' : Material) :
  (forall k, K k = true -> K' k = true) -> same_but K M M' -> same_but K' M M'.
Proof.
  intros HK [H1 A1]. split; [exact H1|].
  intros k Hk. apply A1. destruct (K k) eqn:E; [|reflexivity].
  rewrite (HK k E) in Hk. discriminate.
Qed.

Lemma Forall2_same_but_refl (K : Attr -> bool) (Ms : list Material) :
  Forall2 (same_but K) Ms Ms.
Proof. induction Ms; constructor; auto using same_but_refl. Qed.

Lemma Forall2_same_but_trans (K : Attr -> bool) (l1 l2 l3 : list Material) :
  Forall2 (same_but K) l1 l2 -> Forall2 (same_but K) l2 l3 ->
  Forall2 (same_but K) l1 l3.
Proof.
  intros H12. revert l3. induction H12 as [|M1 M2 l1 l2 HM _ IH]; intros l3 H23.
  - inversion H23; subst. constructor.
  - inversion H23 as [|M2' M3 l2' l3' HM' Hl]; subst. constructor.
    + eapply same_but_trans; eassumption.
    + apply IH. exact Hl.
Qed.

Lemma Forall2_same_but_weaken (K K' : Attr -> bool) (l1 l2 : list Material) :
  (forall k, K k = true -> K' k = true) ->
  Forall2 (same_but K) l1 l2 -> Forall2 (same_but K') l1 l2.
Proof.
  intros HK H. induction H; constructor; eauto using same_but_weaken.
Qed.

Section FrameFacts.

Variable E : Engine.
Variable K : Attr -> bool.

Lemma touches_ret {A : Type} (v : A) : touches K (@ret E A v).
Proof. intros self. simpl. auto using Forall2_same_but_refl. Qed.

Lemma touches_get_self : touches K (@get_self E).
Proof. intros self. simpl. auto using Forall2_same_but_refl. Qed.

Lemma touches_emit (e : Event) : touches K (@emit E e).
Proof. intros self. simpl. auto using Forall2_same_but_refl. Qed.

Lemma touches_raise {A : Type} (e : exn) : touches K (@raise E A e).
Proof. intros self. simpl. auto using Forall2_same_but_refl. Qed.

Lemma touches_out_of_fuel {A : Type} : touches K (@out_of_fuel E A).
Proof. intros self. simpl. auto using Forall2_same_but_refl. Qed.

Lemma touches_set_grid_model (f : Model E -> GridModel) :
  touches K (modify (fun self => set_grid_model E (f self) self)).
Proof. intros self. simpl. auto using Forall2_same_but_refl. Qed.

Lemma touches_call (c : CppCall) : touches K (call E c).
Proof.
  intros self. unfold call.
  destruct (cpp_call E c (mpm_cpp self)); simpl;
    auto using Forall2_same_but_refl.
Qed.

Lemma touches_bind {A B : Type} (m : py E A) (f : A -> py E B) :
  touches K m -> (forall v, touches K (f v)) -> touches K (bind m f).
Proof.
  intros Hm Hf self. unfold bind.
  destruct (Hm self) as [O1 [D1 M1]].
  destruct (m self) as [v s1 l1|e s1 l1|s1 l1]; simpl in *; auto.
  destruct (Hf v s1) as [O2 [D2 M2]].
  destruct (f v s1) as [w s2 l2|e s2 l2|s2 l2]; simpl in *;
    (split; [congruence|]; split; [congruence|];
     eapply Forall2_same_but_trans; eassumption).
Qed.

Lemma touches_if {A : Type} (b : bool) (m1 m2 : py E A) :
  touches K m1 -> touches K m2 -> touches K (if b then m1 else m2).
Proof. destruct b; auto. Qed.

Lemma touches_debug_print (label : string) (k : Attr) :
  touches K (debug_print E label k).
Proof.
  intros self. unfold debug_print, bind, get_self.
  destruct (materials self) as [|M Ms] eqn:HM; simpl.
  - rewrite HM. auto.
  - destruct (getattr M k) as [arr|]; simpl;
      [destruct (getitem arr 100); simpl|];
      rewrite HM; auto using Forall2_same_but_refl.
Qed.

(** Loop bodies. *)
Lemma reads_ret (M0 M : Material) :
  same_but K M0 M -> reads K M0 (@ret E Material M).
Proof. intros H self. exists M, []. auto. Qed.

Lemma reads_print (M0 : Material) (label : string) (r : py E Material) :
  reads K M0 r -> reads K M0 (bind (print_min_max E label) (fun _ => r)).
Proof.
  intros Hr self. unfold bind, print_min_max, emit.
  destruct (Hr self) as [M' [l [E1 [S1 L1]]]]. rewrite E1.
  exists M'. eexists. split; [reflexivity|]. split; [exact S1|].
  simpl. exact L1.
Qed.

Lemma reads_bind (M0 : Material) (r : py E Material)
      (f : Material -> py E Material) :
  reads K M0 r -> (forall M, same_but K M0 M -> reads K M0 (f M)) ->
  reads K M0 (bind r f).
Proof.
  intros Hr Hf self. unfold bind.
  destruct (Hr self) as [M1 [l1 [E1 [S1 L1]]]]. rewrite E1.
  destruct (Hf M1 S1 self) as [M2 [l2 [E2 [S2 L2]]]]. rewrite E2.
  exists M2. eexists. split; [reflexivity|]. split; [exact S2|].
  rewrite stages_app, L1, L2. reflexivity.
Qed.

Lemma reads_rows (M0 M : Material) (r : Row) (k : Attr) :
  same_but K M0 M -> K k = true -> reads K M0 (read_rows E r k M).
Proof.
  intros H Hk self. unfold read_rows, bind, get_self, ret.
  eexists. eexists. split; [reflexivity|]. split; [|reflexivity].
  apply same_but_setattr; assumption.
Qed.

Lemma reads_vrt (M0 M : Material) :
  same_but K M0 M -> K M_vrt = true -> reads K M0 (read_vrt E M).
Proof.
  intros H Hk self. unfold read_vrt, bind, get_self, ret.
  eexists. eexists. split; [reflexivity|]. split; [|reflexivity].
  apply same_but_setattr; assumption.
Qed.

Lemma reads_column (M0 M : Material) (c : Column) (k : Attr) :
  same_but K M0 M -> K k = true -> reads K M0 (read_column E c k M).
Proof.
  intros H Hk self. unfold read_column, bind, get_self, ret.
  eexists. eexists. split; [reflexivity|]. split; [|reflexivity].
  apply same_but_setattr; assumption.
Qed.

(** A loop over the materials whose body only reads the engine. *)
Lemma for_in_reads (body : Material -> py E Material) :
  (forall M, reads K M (body M)) ->
  forall todo done self,
    materials self = done ++ todo ->
    exists self' l todo',
      for_in E done todo body self = Ok tt self' l /\
      out_dir self' = out_dir self /\ dt self' = dt self /\
      grid_model self' = grid_model self /\ mpm_cpp self' = mpm_cpp self /\
      materials self' = done ++ todo' /\
      Forall2 (same_but K) todo todo' /\ stages l = [].
Proof.
  intros Hb todo. induction todo as [|M rest IH]; intros done self Hm.
  - exists self, [], []. simpl. repeat split; auto.
  - simpl. unfold bind. destruct (Hb M self) as [M' [l1 [E1 [S1 L1]]]].
    rewrite E1. simpl.
    destruct (IH (done ++ [M'])
                 (set_materials E (done ++ M' :: rest) self))
      as [self' [l2 [todo' [E2 [O2 [D2 [G2 [C2 [M2 [F2 L2]]]]]]]]]].
    { simpl. rewrite <- app_assoc. reflexivity. }
    rewrite E2. exists self'. eexists. exists (M' :: todo').
    split; [reflexivity|]. repeat split; auto.
    + rewrite M2, <- app_assoc. reflexivity.
    + rewrite stages_app, L1, L2. reflexivity.
Qed.

Lemma for_materials_reads (body : Material -> py E Material) :
  (forall M, reads K M (body M)) ->
  forall self,
    exists self' l,
      for_materials E body self = Ok tt self' l /\
      out_dir self' = out_dir self /\ dt self' = dt self /\
      grid_model self' = grid_model self /\ mpm_cpp self' = mpm_cpp self /\
      Forall2 (same_but K) (materials self) (materials self') /\
      stages l = [].
Proof.
  intros Hb self. unfold for_materials, bind, get_self.
  destruct (for_in_reads body Hb (materials self) [] self eq_refl)
    as [self' [l [todo' [E1 [O1 [D1 [G1 [C1 [M1 [F1 L1]]]]]]]]]].
  rewrite E1. exists self'. eexists. split; [reflexivity|].
  simpl in M1. rewrite M1. repeat split; auto.
Qed.

Lemma touches_for_materials (body : Material -> py E Material) :
  (forall M, reads K M (body M)) -> touches K (for_materials E body).
Proof.
  intros Hb self.
  destruct (for_materials_reads body Hb self)
    as [self' [l [E1 [O1 [D1 [_ [_ [F1 _]]]]]]]].
  rewrite E1. simpl. auto.
Qed.

End FrameFacts.

Ltac reads_tac :=
  repeat first
    [ apply reads_print
    | apply reads_ret; solve [assumption | apply same_but_refl]
    | apply reads_rows;
        [solve [assumption | apply same_but_refl] | reflexivity]
    | apply reads_column;
        [solve [assumption | apply same_but_refl] | reflexivity]
    | apply reads_vrt;
        [solve [assumption | apply same_but_refl] | reflexivity]
    | apply reads_bind; [|intros ? ?] ].

Ltac touch_tac :=
  repeat first
    [ apply touches_for_materials; intros ?; solve [reads_tac]
    | apply touches_call | apply touches_debug_print | apply touches_emit
    | apply touches_get_self | apply touches_ret
    | apply touches_set_grid_model
    | apply touches_if
    | apply touches_bind; [|intros ?] ].

Section StepFrame.

Variable E : Engine.

Lemma touches_weaken {A : Type} (K K' : Attr -> bool) (m : py E A) :
  (forall k, K k = true -> K' k = true) -> touches K m -> touches K' m.
Proof.
  intros HK H self. destruct (H self) as [O [D F]].
  repeat split; auto. eapply Forall2_same_but_weaken; eassumption.
Qed.

Lemma advect_touches :
  touches advected (advect_material_particles E).
Proof. unfold_methods. unfold print_min_max. touch_tac. Qed.

Lemma acceleration_touches :
  touches only_a (interpolate_grid_acceleration_to_material E).
Proof.
  unfold interpolate_grid_acceleration_to_material, print_text. touch_tac.
Qed.

Lemma mpm_step_touches (t_start t : Q) :
  touches (written (Qeq_bool t t_start)) (mpm_step E t_start t).
Proof.
  unfold_methods. destruct (Qeq_bool t t_start); touch_tac.
Qed.

End StepFrame.

Section RunFrame.

Variable E : Engine.

Lemma written_init_most (b : bool) (k : Attr) :
  written b k = true -> written true k = true.
Proof. destruct b, k as [|[]|[]]; simpl; auto. Qed.

Lemma mpm_iteration_touches (t_start t : Q) :
  touches (written true) (mpm_iteration E t_start t).
Proof.
  unfold mpm_iteration. apply touches_bind.
  - eapply touches_weaken; [|apply mpm_step_touches].
    apply written_init_most.
  - intros _. touch_tac.
Qed.

Lemma mpm_while_touches (t_start t_end : Q) (fuel : nat) :
  forall t, touches (written true) (mpm_while E fuel t_start t_end t).
Proof.
  induction fuel as [|fuel IH]; intros t; cbn [mpm_while].
  - apply touches_out_of_fuel.
  - apply touches_if; [|apply touches_ret].
    apply touches_bind; [apply mpm_iteration_touches|]. intros t'. apply IH.
Qed.

Lemma mpm_touches (fuel : nat) (t_start t_end : Q) :
  touches (written true) (mpm E fuel t_start t_end).
Proof.
  unfold mpm, print_text.
  repeat (apply touches_bind; [apply touches_emit|intros _]).
  apply touches_bind; [apply mpm_while_touches|]. intros t. touch_tac.
Qed.

(** X1.  However a run of [mpm] ends (return, exception, or still going),
    it has not changed [out_dir] or [dt], and the list of materials has the
    same length and the same engine twins in the same order. *)
Theorem mpm_keeps_the_materials (fuel : nat) (t_start t_end : Q)
    (self : Model E) :
  let self' := final (mpm E fuel t_start t_end self) in
  out_dir self' = out_dir self /\
  dt self' = dt self /\
  map cpp_mat (materials self') = map cpp_mat (materials self).
Proof.
  destruct (mpm_touches fuel t_start t_end self) as [O [D F]].
  cbv zeta. split; [exact O|]. split; [exact D|].
  induction F as [|M M' l l' [H _] _ IH]; simpl; congruence.
Qed.

(** X2.  No run of [mpm] ever assigns [M.a]: for every material the
    attribute is, at any point where the run ends, what it was (or still
    absent). *)
Theorem mpm_never_assigns_a (fuel : nat) (t_start t_end : Q)
    (self : Model E) :
  Forall2 (fun M M' => getattr M' (M_row get_a) = getattr M (M_row get_a))
          (materials self)
          (materials (final (mpm E fuel t_start t_end self))).
Proof.
  destruct (mpm_touches fuel t_start t_end self) as [_ [_ F]].
  induction F as [|M M' l l' [_ H] _ IH]; constructor; auto.
Qed.

(** X3.  A step at a time [t] other than [t_start] assigns neither [M.rho]
    nor [M.V0], whether it completes or raises. *)
Theorem later_step_keeps_rho_and_V0 (t_start t : Q) (self : Model E) :
  Qeq_bool t t_start = false ->
  Forall2 (fun M M' =>
             getattr M' (M_col get_rho) = getattr M (M_col get_rho) /\
             getattr M' (M_col get_V0) = getattr M (M_col get_V0))
          (materials self)
          (materials (final (mpm_step E t_start t self))).
Proof.
  intros Hb. destruct (mpm_step_touches E t_start t self) as [_ [_ F]].
  rewrite Hb in F.
  induction F as [|M M' l l' [_ H] _ IH]; constructor; auto.
Qed.

End RunFrame.

(* ================================================================== *)
(** ** What a completed method tells                                    *)
(* ================================================================== *)

Section Inversion.

Variable E : Engine.

Lemma bind_ok_inv {A B : Type} (m : py E A) (f : A -> py E B)
      (self self' : Model E) (v : B) (l : list Event) :
  bind m f self = Ok v self' l ->
  exists w s1 l1 l2,
    m self = Ok w s1 l1 /\ f w s1 = Ok v self' l2 /\ l = l1 ++ l2.
Proof.
  unfold bind. destruct (m self) as [w s1 l1|e s1 l1|s1 l1]; try discriminate.
  destruct (f w s1) as [v' s2 l2|e s2 l2|s2 l2] eqn:Hf; try discriminate.
  intros H. injection H as -> -> <-. exists w, s1, l1, l2. auto.
Qed.

Lemma debug_print_inv (label : string) (k : Attr) (self self' : Model E)
      (v : unit) (l : list Event) :
  debug_print E label k self = Ok v self' l ->
  self' = self /\
  exists M, nth_error (materials self) 0 = Some M /\ has_row_100 M k.
Proof.
  unfold debug_print, bind, get_self, has_row_100.
  destruct (materials self) as [|M Ms]; simpl; [discriminate|].
  destruct (getattr M k) as [arr|] eqn:Ha; simpl; [|discriminate].
  destruct (getitem arr 100) eqn:Hg; simpl; [|discriminate].
  intros H. injection H as _ <- _. split; [reflexivity|].
  exists M. split; [reflexivity|]. exists arr.
  split; [first [reflexivity | exact Ha]|]. congruence.
Qed.

Lemma call_ok_inv (c : CppCall) (self self' : Model E) (v : unit)
      (l : list Event) :
  call E c self = Ok v self' l ->
  exists s, cpp_call E c (mpm_cpp self) = cpp_ok s /\
            self' = set_mpm_cpp E s self.
Proof.
  unfold call. destruct (cpp_call E c (mpm_cpp self)) as [s|e s];
    [|discriminate].
  intros H. injection H as _ <- _. exists s. auto.
Qed.

(** X4.  A step can run to its end only on a model whose first material
    has a row 100 in [M.grad_u], [M.epsilon] and [M.sigma], that is, at
    least 101 particles: the three diagnostic lines of [mpm] index them. *)
Theorem completed_step_needs_101_particles (t_start t : Q)
    (self self' : Model E) (l : list Event) :
  mpm_step E t_start t self = Ok tt self' l ->
  exists M, nth_error (materials self') 0 = Some M /\
            has_row_100 M (M_row get_grad_u) /\
            has_row_100 M (M_row get_epsilon) /\
            has_row_100 M (M_row get_sigma).
Proof.
  intros H. unfold mpm_step in H.
  do 15 (apply bind_ok_inv in H; destruct H as (? & ? & ? & ? & _ & H & _)).
  apply bind_ok_inv in H; destruct H as (? & ? & ? & ? & H1 & H & _).
  apply debug_print_inv in H1. destruct H1 as [-> (M1 & N1 & R1)].
  apply bind_ok_inv in H; destruct H as (? & ? & ? & ? & H2 & H & _).
  apply debug_print_inv in H2. destruct H2 as [-> (M2 & N2 & R2)].
  apply bind_ok_inv in H; destruct H as (? & ? & ? & ? & H3 & H & _).
  apply debug_print_inv in H3. destruct H3 as [-> (M3 & N3 & R3)].
  rewrite N1 in N2, N3. injection N2 as <-. injection N3 as <-.
  match type of H with
  | advect_material_particles _ ?s = _ =>
      destruct (advect_touches E s) as [_ [_ F]]; rewrite H in F; simpl in F;
      destruct (materials s) as [|M Ms]; [discriminate|]
  end.
  simpl in N1. injection N1 as ->.
  inversion F as [|? M' ? Ms' [_ HA] _]; subst.
  exists M'. split; [reflexivity|].
  unfold has_row_100 in *.
  rewrite !HA by reflexivity. auto.
Qed.

End Inversion.

(* ================================================================== *)
(** ** The Python-side mirrors                                          *)
(* ================================================================== *)

Section Mirrors.

Variable E : Engine.

(** When [advect_material_particles] returns, [M.u] and [M.x] of every
    material are the engine's current [get_u(i)] and [get_x(i)], one row
    per particle the engine reports. *)
Lemma advection_mirrors_u_and_x (self self' : Model E) (l : list Event) :
  advect_material_particles E self = Ok tt self' l ->
  forall M', In M' (materials self') ->
    getattr M' (M_row get_u)
    = Some (mirror_rows E get_u M' (mpm_cpp self')) /\
    getattr M' (M_row get_x)
    = Some (mirror_rows E get_x M' (mpm_cpp self')).
Proof.
  intros H. unfold advect_material_particles in H.
  do 3 (apply bind_ok_inv in H; destruct H as (? & ? & ? & ? & _ & H & _)).
  set (g := fun (s : cpp_state E) (M : Material) =>
              setattr (setattr M (M_row get_u) (mirror_rows E get_u M s))
                      (M_row get_x) (mirror_rows E get_x M s)).
  match type of H with
  | for_materials _ ?b ?s = _ =>
      destruct (for_materials_readers E b g
                  ltac:(intros; eexists; reflexivity) s)
        as [s1 [l1 [E1 [C1 M1]]]]
  end.
  rewrite E1 in H. injection H as <- _.
  intros M' HM'. rewrite M1 in HM'. apply in_map_iff in HM'.
  destruct HM' as [M [<- _]]. rewrite C1. unfold g.
  rewrite getattr_setattr_other, !getattr_setattr_same by discriminate.
  auto.
Qed.

(** X5.  When a step returns, [M.u] and [M.x] of every material are the
    engine's current [get_u(i)] and [get_x(i)], one row per particle the
    engine reports: nothing touches the engine after the read-back that
    ends [advect_material_particles]. *)
Theorem completed_step_mirrors_u_and_x (t_start t : Q)
    (self self' : Model E) (l : list Event) :
  mpm_step E t_start t self = Ok tt self' l ->
  forall M', In M' (materials self') ->
    getattr M' (M_row get_u)
    = Some (mirror_rows E get_u M' (mpm_cpp self')) /\
    getattr M' (M_row get_x)
    = Some (mirror_rows E get_x M' (mpm_cpp self')).
Proof.
  intros H. unfold mpm_step in H.
  do 18 (apply bind_ok_inv in H; destruct H as (? & ? & ? & ? & _ & H & _)).
  exact (advection_mirrors_u_and_x _ _ _ H).
Qed.

(** X6.  Whatever the engine, [calculate_material_initial_volume] fills
    [M.V0] from the engine's [get_V()] and [M.V] from its [get_V0()]: the
    two mirrors are crossed with respect to the engine's arrays. *)
Theorem initial_volume_mirrors_are_crossed (self self' : Model E)
    (l : list Event) :
  calculate_material_initial_volume E self = Ok tt self' l ->
  forall M', In M' (materials self') ->
    getattr M' (M_col get_V0)
    = Some (array1 (get_column E get_V (cpp_mat M') (mpm_cpp self'))) /\
    getattr M' (M_col get_V)
    = Some (array1 (get_column E get_V0 (cpp_mat M') (mpm_cpp self'))).
Proof.
  intros H. unfold calculate_material_initial_volume in H.
  do 2 (apply bind_ok_inv in H; destruct H as (? & ? & ? & ? & _ & H & _)).
  set (g := fun (s : cpp_state E) (M : Material) =>
              setattr
                (setattr M (M_col get_V0)
                   (array1 (get_column E get_V (cpp_mat M) s)))
                (M_col get_V)
                (array1 (get_column E get_V0 (cpp_mat M) s))).
  match type of H with
  | for_materials _ ?b ?s = _ =>
      destruct (for_materials_readers E b g
                  ltac:(intros; eexists; reflexivity) s)
        as [s1 [l1 [E1 [C1 M1]]]]
  end.
  rewrite E1 in H. injection H as <- _.
  intros M' HM'. rewrite M1 in HM'. apply in_map_iff in HM'.
  destruct HM' as [M [<- _]]. rewrite C1. unfold g.
  rewrite getattr_setattr_other, !getattr_setattr_same by discriminate.
  auto.
Qed.


End Mirrors.

(* ================================================================== *)
(** ** A model without materials                                        *)
(* ================================================================== *)

Section Unmanned.

Variable E : Engine.
Hypothesis engine_never_throws : never_throws E.

Lemma unmanned_ret {A : Type} (v : A) : unmanned (@ret E A v) [].
Proof. intros self H. exists v, self, []. auto. Qed.

Lemma unmanned_get_self : unmanned (@get_self E) [].
Proof. intros self H. exists self, self, []. auto. Qed.

Lemma unmanned_emit (e : Event) : unmanned (@emit E e) (stages [e]).
Proof. intros self H. exists tt, self, [e]. auto. Qed.

Lemma unmanned_set_grid_model (f : Model E -> GridModel) :
  unmanned (modify (fun self => set_grid_model E (f self) self)) [].
Proof.
  intros self H. exists tt, (set_grid_model E (f self) self), []. auto.
Qed.

Lemma unmanned_call (c : CppCall) : unmanned (call E c) [ev_cpp c].
Proof.
  intros self H. unfold call.
  destruct (engine_never_throws c (mpm_cpp self)) as [s Hs]. rewrite Hs.
  exists tt, (set_mpm_cpp E s self), [ev_cpp c]. auto.
Qed.

Lemma unmanned_for_materials (body : Material -> py E Material) :
  unmanned (for_materials E body) [].
Proof.
  intros self H. unfold for_materials, bind, get_self. rewrite H. simpl.
  exists tt, self, []. auto.
Qed.

Lemma unmanned_bind {A B : Type} (m : py E A) (f : A -> py E B)
      (s1 s2 : list Event) :
  unmanned m s1 -> (forall v, unmanned (f v) s2) ->
  unmanned (bind m f) (s1 ++ s2).
Proof.
  intros Hm Hf self H. unfold bind.
  destruct (Hm self H) as [v [self1 [l1 [E1 [M1 L1]]]]]. rewrite E1.
  destruct (Hf v self1 M1) as [w [self2 [l2 [E2 [M2 L2]]]]]. rewrite E2.
  exists w, self2, (l1 ++ l2). repeat split; auto.
  rewrite stages_app, L1, L2. reflexivity.
Qed.

Lemma unmanned_if {A : Type} (b : bool) (m1 m2 : py E A)
      (s1 s2 : list Event) :
  unmanned m1 s1 -> unmanned m2 s2 ->
  unmanned (if b then m1 else m2) (if b then s1 else s2).
Proof. destruct b; auto. Qed.

Lemma unmanned_fails_debug_print (label : string) (k : Attr) :
  unmanned_fails (debug_print E label k) [] IndexError.
Proof.
  intros self H. unfold debug_print, bind, get_self. rewrite H. simpl.
  exists self, []. auto.
Qed.

Lemma unmanned_fails_first {A B : Type} (m : py E A) (f : A -> py E B)
      (sc : list Event) (e : exn) :
  unmanned_fails m sc e -> unmanned_fails (bind m f) sc e.
Proof.
  intros Hm self H. unfold bind.
  destruct (Hm self H) as [self1 [l1 [E1 L1]]]. rewrite E1.
  exists self1, l1. auto.
Qed.

Lemma unmanned_fails_seq {A B : Type} (m : py E A) (f : A -> py E B)
      (s1 s2 : list Event) (e : exn) :
  unmanned m s1 -> (forall v, unmanned_fails (f v) s2 e) ->
  unmanned_fails (bind m f) (s1 ++ s2) e.
Proof.
  intros Hm Hf self H. unfold bind.
  destruct (Hm self H) as [v [self1 [l1 [E1 [M1 L1]]]]]. rewrite E1.
  destruct (Hf v self1 M1) as [self2 [l2 [E2 L2]]]. rewrite E2.
  exists self2, (l1 ++ l2). split; [reflexivity|].
  rewrite stages_app, L1, L2. reflexivity.
Qed.

Lemma unmanned_fails_eq {A : Type} (m : py E A) (s s' : list Event)
      (e : exn) :
  unmanned_fails m s e -> s = s' -> unmanned_fails m s' e.
Proof. intros H <-. exact H. Qed.

End Unmanned.

Ltac unmanned_tac H :=
  repeat first
    [ apply unmanned_for_materials
    | apply (unmanned_call _ H) | apply unmanned_emit
    | apply unmanned_get_self | apply unmanned_ret
    | apply unmanned_set_grid_model
    | eapply unmanned_if
    | eapply unmanned_bind; [|intros ?] ].

Section UnmannedRun.

Variable E : Engine.
Hypothesis engine_never_throws : never_throws E.

Lemma mpm_step_unmanned (t_start t : Q) :
  unmanned_fails (mpm_step E t_start t)
    (unmanned_script (Qeq_bool t t_start) t) IndexError.
Proof.
  unfold_methods. eapply unmanned_fails_eq.
  - do 15 (eapply unmanned_fails_seq;
           [solve [unmanned_tac engine_never_throws]|intros ?]).
    apply unmanned_fails_first. apply unmanned_fails_debug_print.
  - unfold unmanned_script. destruct (Qeq_bool t t_start); reflexivity.
Qed.

(** X8.  On a model without materials, as the constructor leaves it, and
    with an engine whose calls complete, [mpm] with [t_start <= t_end]
    raises [IndexError] in its first pass: after the stages up to the stress
    update and the four snapshots, at the first diagnostic line, before any
    advection. *)
Theorem mpm_without_materials_raises (fuel : nat) (t_start t_end : Q)
    (self : Model E) :
  materials self = [] ->
  (t_start <= t_end)%Q ->
  exists self' l,
    mpm E (S fuel) t_start t_end self = Raise IndexError self' l /\
    stages l = prologue ++ unmanned_script true t_start.
Proof.
  intros HM Hle. apply Qle_bool_iff in Hle.
  assert (H : unmanned_fails (mpm E (S fuel) t_start t_end)
                (prologue ++ unmanned_script true t_start) IndexError).
  { unfold mpm, print_text. eapply unmanned_fails_eq.
    - do 5 (eapply unmanned_fails_seq; [apply unmanned_emit|intros ?]).
      apply unmanned_fails_first. cbn [mpm_while]. rewrite Hle.
      apply unmanned_fails_first. unfold mpm_iteration.
      apply unmanned_fails_first.
      apply (mpm_step_unmanned t_start t_start).
    - rewrite Qeq_bool_same. reflexivity. }
  exact (H self HM).
Qed.

End UnmannedRun.

(* ================================================================== *)
(** ** Snapshot times and the zero time step                            *)
(* ================================================================== *)

Lemma save_times_app (name : string) (l1 l2 : list Event) :
  save_times name (l1 ++ l2) = save_times name l1 ++ save_times name l2.
Proof.
  induction l1 as [|e l1 IH]; simpl; [reflexivity|].
  destruct e; simpl; try exact IH.
  destruct (String.eqb name0 name); simpl; rewrite IH; reflexivity.
Qed.

Lemma save_times_stages (name : string) (l : list Event) :
  save_times name (stages l) = save_times name l.
Proof.
  induction l as [|e l IH]; simpl; [reflexivity|].
  destruct e; simpl; rewrite ?IH; reflexivity.
Qed.

Lemma save_times_iteration (name : string) (b : bool) (t step : Q) :
  In name saved_fields ->
  save_times name (iteration_script b t step) = [t].
Proof.
  intros H. simpl in H.
  destruct H as [<-|[<-|[<-|[<-|[]]]]]; destruct b; reflexivity.
Qed.

Lemma save_times_while (name : string) (t_start step : Q) :
  In name saved_fields ->
  forall n t,
    save_times name (while_script n t_start t step)
    = map (time_at t step) (seq 0 n).
Proof.
  intros H n. induction n as [|n IH]; intros t; cbn [while_script];
    [reflexivity|].
  rewrite save_times_app, save_times_iteration, IH by exact H.
  simpl. f_equal. rewrite <- seq_shift, map_map. reflexivity.
Qed.

(** With a zero step the loop variable stays at [t_start], so every pass
    is an initialization pass. *)
Lemma while_script_zero_step (p : Event -> bool) (t_start step : Q) :
  (step == 0)%Q ->
  (forall t, count p (iteration_script true t step) = 1) ->
  forall n t, (t == t_start)%Q ->
    count p (while_script n t_start t step) = n.
Proof.
  intros Hs Hp n. induction n as [|n IH]; intros t Ht; cbn [while_script];
    [reflexivity|].
  assert (Hb : Qeq_bool t t_start = true) by (apply Qeq_bool_iff; exact Ht).
  rewrite Hb, count_app, Hp, IH; [reflexivity|].
  rewrite Ht, Hs. ring.
Qed.

Section Output.

Variable E : Engine.


(** X10.  With a zero time step and [t_start <= t_end], [mpm] never
    returns and every pass is an initialization pass: as long as no stage
    raises, after [fuel] passes the density and the initial volume have each
    been computed [fuel] times. *)
Theorem zero_step_reinitializes (fuel : nat) (t_start t_end : Q)
    (self : Model E) :
  (dt self == 0)%Q ->
  (t_start <= t_end)%Q ->
  let r := mpm E fuel t_start t_end self in
  completed r = false /\
  (raised r = false ->
   count is_time (log_of r) = fuel /\
   count (is_cpp calculate_material_density_cpp) (log_of r) = fuel /\
   count (is_cpp calculate_material_initial_volume_cpp) (log_of r) = fuel).
Proof.
  intros Hs Hle r. subst r.
  destruct (mpm_run E t_start t_end fuel self) as [_ L].
  destruct (mpm E fuel t_start t_end self) as [t' s l|e s l|s l]; simpl.
  - destruct L as [n [_ [_ [_ [_ Hend]]]]].
    rewrite time_at_stuck in Hend; [discriminate| |exact Hle].
    rewrite Hs. apply Qle_refl.
  - split; [reflexivity|discriminate].
  - split; [reflexivity|]. intros _. destruct L as [Hl _].
    rewrite <- (count_stages is_time),
            <- (count_stages (is_cpp calculate_material_density_cpp)),
            <- (count_stages (is_cpp calculate_material_initial_volume_cpp)),
            Hl, !count_app
      by (intros [] He; try discriminate; reflexivity).
    rewrite !while_script_zero_step
      by (try exact Hs; try reflexivity; intros; reflexivity).
    repeat split; reflexivity.
Qed.

End Output.

(* ================================================================== *)
(** ** After the first pass, and the empty range                        *)
(* ================================================================== *)

Section LaterPasses.

Variable E : Engine.

Lemma mpm_iteration_touches_exactly (t_start t : Q) :
  touches (written (Qeq_bool t t_start)) (mpm_iteration E t_start t).
Proof.
  unfold mpm_iteration. apply touches_bind; [apply mpm_step_touches|].
  intros _. touch_tac.
Qed.

(** Once [t] is beyond [t_start], with a positive step, the rest of the
    loop assigns neither [M.rho] nor [M.V0] (nor [M.a]). *)
Lemma later_passes_touch (t_start t_end : Q) (fuel : nat) :
  forall (t : Q) (self : Model E),
    (0 < dt self)%Q -> (t_start < t)%Q ->
    Forall2 (same_but (written false)) (materials self)
            (materials (final (mpm_while E fuel t_start t_end t self))).
Proof.
  induction fuel as [|fuel IH]; intros t self Hs Ht; cbn [mpm_while].
  - apply Forall2_same_but_refl.
  - destruct (Qle_bool t t_end); [|apply Forall2_same_but_refl].
    assert (Hb : Qeq_bool t t_start = false).
    { destruct (Qeq_bool t t_start) eqn:Hb; [|reflexivity].
      apply Qeq_bool_iff in Hb. lra. }
    unfold bind.
    destruct (mpm_iteration_touches_exactly t_start t self) as [_ [_ F1]].
    destruct (mpm_iteration_run E t_start t self) as [D1 L1].
    rewrite Hb in F1.
    destruct (mpm_iteration E t_start t self) as [t1 s1 l1|e s1 l1|s1 l1];
      simpl in *; try exact F1.
    destruct L1 as [-> _].
    assert (F2 := IH (t + dt self)%Q s1).
    rewrite D1 in F2. specialize (F2 Hs ltac:(lra)).
    eapply Forall2_same_but_trans; [exact F1|].
    destruct (mpm_while E fuel t_start t_end (t + dt self)%Q s1);
      simpl in *; exact F2.
Qed.


(** X12.  With [t_start > t_end] the loop body is never entered: [mpm]
    returns at once with [t = t_start], the model untouched, no engine call
    and no snapshot; only its first and last lines and the four file
    handles are logged. *)
Theorem empty_time_range (fuel : nat) (t_start t_end : Q) (self : Model E) :
  (t_end < t_start)%Q ->
  mpm E (S fuel) t_start t_end self
  = Ok t_start self
       (prologue ++ [ev_text "total time to perform transient run"]).
Proof.
  intros Hlt.
  assert (Hb : Qle_bool t_start t_end = false).
  { destruct (Qle_bool t_start t_end) eqn:Hb; [|reflexivity].
    apply Qle_bool_iff in Hb. lra. }
  unfold mpm, print_text, bind, emit. cbn [mpm_while]. rewrite Hb.
  reflexivity.
Qed.

End LaterPasses.

(* ================================================================== *)
(** ** Concrete runs for the frames, mirrors and edge cases             *)
(* ================================================================== *)

Lemma steady_never_throws : never_throws E0.
Proof. intros c s. eexists. reflexivity. Qed.

(** The second pass of [big], at [t = 1/2]. *)
Lemma later_step_keeps_rho_and_V0_witness :
  Forall2 (fun M M' =>
             getattr M' (M_col get_rho) = getattr M (M_col get_rho) /\
             getattr M' (M_col get_V0) = getattr M (M_col get_V0))
          (materials seasoned)
          (materials (final (mpm_step E0 0 (1 # 2) seasoned))).
Proof.
  apply (later_step_keeps_rho_and_V0 E0 0 (1 # 2) seasoned). reflexivity.
Defined.

Lemma completed_step_needs_101_particles_witness :
  exists M,
    nth_error (materials (final (mpm_step E0 0 0 big))) 0 = Some M /\
    has_row_100 M (M_row get_grad_u) /\
    has_row_100 M (M_row get_epsilon) /\
    has_row_100 M (M_row get_sigma).
Proof.
  apply (completed_step_needs_101_particles E0 0 0 big
           (final (mpm_step E0 0 0 big)) (log_of (mpm_step E0 0 0 big))).
  vm_compute. reflexivity.
Defined.

Lemma completed_step_mirrors_u_and_x_witness :
  getattr (first_material (final (mpm_step E0 0 0 big))) (M_row get_u)
  = Some (mirror_rows E0 get_u (first_material (final (mpm_step E0 0 0 big)))
            (mpm_cpp (final (mpm_step E0 0 0 big)))) /\
  getattr (first_material (final (mpm_step E0 0 0 big))) (M_row get_x)
  = Some (mirror_rows E0 get_x (first_material (final (mpm_step E0 0 0 big)))
            (mpm_cpp (final (mpm_step E0 0 0 big)))).
Proof.
  apply (completed_step_mirrors_u_and_x E0 0 0 big
           (final (mpm_step E0 0 0 big)) (log_of (mpm_step E0 0 0 big))).
  - vm_compute. reflexivity.
  - vm_compute. left. reflexivity.
Defined.

Lemma initial_volume_mirrors_are_crossed_witness :
  getattr (first_material (final (calculate_material_initial_volume E0 weighed)))
          (M_col get_V0)
  = Some (array1 (get_column E0 get_V
            (cpp_mat (first_material
                        (final (calculate_material_initial_volume E0 weighed))))
            (mpm_cpp (final (calculate_material_initial_volume E0 weighed)))))
  /\
  getattr (first_material (final (calculate_material_initial_volume E0 weighed)))
          (M_col get_V)
  = Some (array1 (get_column E0 get_V0
            (cpp_mat (first_material
                        (final (calculate_material_initial_volume E0 weighed))))
            (mpm_cpp (final (calculate_material_initial_volume E0 weighed))))).
Proof.
  apply (initial_volume_mirrors_are_crossed E0 weighed
           (final (calculate_material_initial_volume E0 weighed))
           (log_of (calculate_material_initial_volume E0 weighed))).
  - vm_compute. reflexivity.
  - vm_compute. left. reflexivity.
Defined.

(** [mpm(0, 1)] on the model the constructor returns. *)
Lemma mpm_without_materials_raises_witness :
  exists self' l,
    mpm E0 2 0 1 fresh = Raise IndexError self' l /\
    stages l = prologue ++ unmanned_script true 0.
Proof.
  apply (mpm_without_materials_raises E0 steady_never_throws 1 0 1 fresh).
  - reflexivity.
  - discriminate.
Defined.


Lemma zero_step_reinitializes_witness :
  completed (mpm E0 3 0 1 frozen) = false /\
  (raised (mpm E0 3 0 1 frozen) = false ->
   count is_time (log_of (mpm E0 3 0 1 frozen)) = 3 /\
   count (is_cpp calculate_material_density_cpp)
         (log_of (mpm E0 3 0 1 frozen)) = 3 /\
   count (is_cpp calculate_material_initial_volume_cpp)
         (log_of (mpm E0 3 0 1 frozen)) = 3).
Proof.
  apply (zero_step_reinitializes E0 3 0 1 frozen).
  - reflexivity.
  - discriminate.
Defined.


Lemma empty_time_range_witness :
  mpm E0 1 1 0 big
  = Ok 1%Q big (prologue ++ [ev_text "total time to perform transient run"]).
Proof. apply (empty_time_range E0 0 1 0 big). reflexivity. Defined.

(* ================================================================== *)
(** ** When a step runs through                                         *)
(* ================================================================== *)

Section RunsFacts.

Variable E : Engine.
Variable J : cpp_state E -> Prop.
Variable j : nat.
Hypothesis engine_sound : sound_engine E J j.
Variable K : Attr -> bool.

Lemma runs_ret {A : Type} (v : A) : runs J K (@ret E A v).
Proof.
  intros self H. exists v, self, []. auto using Forall2_same_but_refl.
Qed.

Lemma runs_get_self : runs J K (@get_self E).
Proof.
  intros self H. exists self, self, []. auto using Forall2_same_but_refl.
Qed.

Lemma runs_emit (e : Event) : runs J K (@emit E e).
Proof.
  intros self H. exists tt, self, [e]. auto using Forall2_same_but_refl.
Qed.

Lemma runs_set_grid_model (f : Model E -> GridModel) :
  runs J K (modify (fun self => set_grid_model E (f self) self)).
Proof.
  intros self H. exists tt, (set_grid_model E (f self) self), [].
  auto using Forall2_same_but_refl.
Qed.

Lemma runs_call (c : CppCall) : runs J K (call E c).
Proof.
  intros self H. unfold call.
  destruct (proj1 engine_sound c (mpm_cpp self) H) as [s [Hs HJ]].
  rewrite Hs. exists tt, (set_mpm_cpp E s self), [ev_cpp c].
  auto using Forall2_same_but_refl.
Qed.

Lemma runs_bind {A B : Type} (m : py E A) (f : A -> py E B) :
  runs J K m -> (forall v, runs J K (f v)) -> runs J K (bind m f).
Proof.
  intros Hm Hf self H. unfold bind.
  destruct (Hm self H) as [v [s1 [l1 [E1 [J1 F1]]]]]. rewrite E1.
  destruct (Hf v s1 J1) as [w [s2 [l2 [E2 [J2 F2]]]]]. rewrite E2.
  exists w, s2, (l1 ++ l2). repeat split; auto.
  eapply Forall2_same_but_trans; eassumption.
Qed.

Lemma runs_if {A : Type} (b : bool) (m1 m2 : py E A) :
  runs J K m1 -> runs J K m2 -> runs J K (if b then m1 else m2).
Proof. destruct b; auto. Qed.

Lemma runs_for_materials (body : Material -> py E Material) :
  (forall M, reads K M (body M)) -> runs J K (for_materials E body).
Proof.
  intros Hb self H.
  destruct (for_materials_reads E K body Hb self)
    as [s1 [l [E1 [_ [_ [_ [C1 [F1 _]]]]]]]].
  exists tt, s1, l. rewrite C1. auto.
Qed.

(** Sequencing. *)
Lemma hoare_bind {A B : Type} (P Q R : Model E -> Prop) (m : py E A)
      (f : A -> py E B) :
  hoare P m Q -> (forall v, hoare Q (f v) R) -> hoare P (bind m f) R.
Proof.
  intros Hm Hf self H. unfold bind.
  destruct (Hm self H) as [v [s1 [l1 [E1 Q1]]]]. rewrite E1.
  destruct (Hf v s1 Q1) as [w [s2 [l2 [E2 R2]]]]. rewrite E2.
  exists w, s2, (l1 ++ l2). auto.
Qed.

(** A method that runs and assigns nothing in [S] keeps a crewed model
    crewed. *)
Lemma hoare_frame {A : Type} (S : Attr -> bool) (m : py E A) :
  runs J K m -> (forall k, S k = true -> K k = false) ->
  hoare (crewed J j S) m (crewed J j S).
Proof.
  intros Hm HS self [HJ [M [Ms [HM [Hj HR]]]]].
  destruct (Hm self HJ) as [v [s1 [l1 [E1 [J1 F1]]]]].
  exists v, s1, l1. split; [exact E1|]. split; [exact J1|].
  rewrite HM in F1. inversion F1 as [|? M' ? Ms' [Hc HA] _]; subst.
  exists M', Ms'. repeat split; auto.
  intros k Hk. destruct (HR k Hk) as [arr [Ha Hg]].
  exists arr. rewrite HA by (apply HS; exact Hk). auto.
Qed.

End RunsFacts.

Ltac runs_tac H :=
  repeat first
    [ apply runs_for_materials; intros ?; solve [reads_tac]
    | apply (runs_call _ _ _ H) | apply runs_emit
    | apply runs_get_self | apply runs_ret
    | apply runs_set_grid_model
    | apply runs_if
    | apply runs_bind; [|intros ?] ].

Section Establish.

Variable E : Engine.
Variable J : cpp_state E -> Prop.
Variable j : nat.
Hypothesis engine_sound : sound_engine E J j.

Lemma mirror_has_row_100 (r : Row) (M : Material) (s : cpp_state E) :
  100 < get_num_particles E (cpp_mat M) s ->
  getitem (mirror_rows E r M s) 100 <> None.
Proof.
  intros H. unfold mirror_rows, getitem.
  destruct (nth_error
              (map (get_row E r (cpp_mat M) s)
                   (seq 0 (get_num_particles E (cpp_mat M) s))) 100)
    eqn:Hn; [discriminate|].
  apply nth_error_None in Hn. rewrite length_map, length_seq in Hn. lia.
Qed.

(** When the method returns, [M.grad_u] is the engine's current
    [get_grad_u(i)], row by row. *)
Lemma velocity_gradient_mirror (self self' : Model E) (l : list Event) :
  calculate_material_velocity_gradient E self = Ok tt self' l ->
  forall M', In M' (materials self') ->
    getattr M' (M_row get_grad_u)
    = Some (mirror_rows E get_grad_u M' (mpm_cpp self')).
Proof.
  intros H. unfold calculate_material_velocity_gradient in H.
  do 2 (apply bind_ok_inv in H; destruct H as (? & ? & ? & ? & _ & H & _)).
  set (g := fun (s : cpp_state E) (M : Material) =>
              setattr M (M_row get_grad_u) (mirror_rows E get_grad_u M s)).
  match type of H with
  | for_materials _ ?b ?s = _ =>
      destruct (for_materials_readers E b g
                  ltac:(intros; eexists; reflexivity) s)
        as [s1 [l1 [E1 [C1 M1]]]]
  end.
  rewrite E1 in H. injection H as <- _.
  intros M' HM'. rewrite M1 in HM'. apply in_map_iff in HM'.
  destruct HM' as [M [<- _]]. rewrite C1. unfold g.
  rewrite getattr_setattr_same. reflexivity.
Qed.

Lemma stress_mirror (self self' : Model E) (l : list Event) :
  update_material_stress E self = Ok tt self' l ->
  forall M', In M' (materials self') ->
    getattr M' (M_row get_epsilon)
    = Some (mirror_rows E get_epsilon M' (mpm_cpp self')) /\
    getattr M' (M_row get_sigma)
    = Some (mirror_rows E get_sigma M' (mpm_cpp self')).
Proof.
  intros H. unfold update_material_stress in H.
  do 2 (apply bind_ok_inv in H; destruct H as (? & ? & ? & ? & _ & H & _)).
  set (g := fun (s : cpp_state E) (M : Material) =>
              setattr
                (setattr M (M_row get_epsilon)
                         (mirror_rows E get_epsilon M s))
                (M_row get_sigma) (mirror_rows E get_sigma M s)).
  match type of H with
  | for_materials _ ?b ?s = _ =>
      destruct (for_materials_readers E b g
                  ltac:(intros; eexists; reflexivity) s)
        as [s1 [l1 [E1 [C1 M1]]]]
  end.
  rewrite E1 in H. injection H as <- _.
  intros M' HM'. rewrite M1 in HM'. apply in_map_iff in HM'.
  destruct HM' as [M [<- _]]. rewrite C1. unfold g.
  rewrite getattr_setattr_other, !getattr_setattr_same by discriminate.
  auto.
Qed.

Lemma velocity_gradient_establishes :
  hoare (crewed J j no_attr) (calculate_material_velocity_gradient E)
        (crewed J j only_grad_u).
Proof.
  intros self [HJ [M [Ms [HM [Hj _]]]]].
  assert (Hr : runs J only_grad_u (calculate_material_velocity_gradient E)).
  { unfold calculate_material_velocity_gradient, print_text.
    runs_tac engine_sound. }
  destruct (Hr self HJ) as [[] [s1 [l1 [E1 [J1 F1]]]]].
  exists tt, s1, l1. split; [exact E1|]. split; [exact J1|].
  rewrite HM in F1. inversion F1 as [|? M' ? Ms' [Hc _] _]; subst.
  exists M', Ms'. repeat split; auto.
  intros k Hk. destruct k as [|[]|[]]; try discriminate.
  assert (Hin : In M' (materials s1))
    by (match goal with H : _ :: _ = materials s1 |- _ =>
          rewrite <- H; left; reflexivity end).
  exists (mirror_rows E get_grad_u M' (mpm_cpp s1)).
  split; [exact (velocity_gradient_mirror _ _ _ E1 M' Hin)|].
  apply mirror_has_row_100. rewrite Hc.
  exact (proj2 engine_sound _ J1).
Qed.

Lemma stress_establishes :
  hoare (crewed J j only_grad_u) (update_material_stress E)
        (crewed J j diagnosed).
Proof.
  intros self [HJ [M [Ms [HM [Hj HR]]]]].
  assert (Hr : runs J stress_attrs (update_material_stress E)).
  { unfold update_material_stress, print_text. runs_tac engine_sound. }
  destruct (Hr self HJ) as [[] [s1 [l1 [E1 [J1 F1]]]]].
  exists tt, s1, l1. split; [exact E1|]. split; [exact J1|].
  rewrite HM in F1. inversion F1 as [|? M' ? Ms' [Hc HA] _]; subst.
  exists M', Ms'. repeat split; auto.
  assert (Hin : In M' (materials s1))
    by (match goal with H : _ :: _ = materials s1 |- _ =>
          rewrite <- H; left; reflexivity end).
  destruct (stress_mirror _ _ _ E1 M' Hin) as [He Hs].
  assert (Hn : 100 < get_num_particles E (cpp_mat M') (mpm_cpp s1))
    by (rewrite Hc; exact (proj2 engine_sound _ J1)).
  intros k Hk. destruct k as [|[]|[]]; try discriminate.
  - destruct (HR (M_row get_grad_u) eq_refl) as [arr [Ha Hg]].
    exists arr. rewrite HA by reflexivity. auto.
  - eexists. split; [exact He|]. apply mirror_has_row_100. exact Hn.
  - eexists. split; [exact Hs|]. apply mirror_has_row_100. exact Hn.
Qed.

Lemma debug_print_passes (label : string) (k : Attr) :
  diagnosed k = true ->
  hoare (crewed J j diagnosed) (debug_print E label k) (crewed J j diagnosed).
Proof.
  intros Hk self H. pose proof H as [HJ [M [Ms [HM [Hj HR]]]]].
  unfold debug_print, bind, get_self. rewrite HM. simpl.
  destruct (HR k Hk) as [arr [Ha Hg]]. rewrite Ha.
  destruct (getitem arr 100); [|contradiction]. simpl.
  exists tt, self. eexists. split; [reflexivity|]. exact H.
Qed.

Lemma crewed_weaken (S : Attr -> bool) (self : Model E) :
  crewed J j S self -> crewed J j no_attr self.
Proof.
  intros [HJ [M [Ms [HM [Hj _]]]]]. split; [exact HJ|].
  exists M, Ms. repeat split; auto. intros k Hk. discriminate.
Qed.

Lemma hoare_weaken {A : Type} (P P' Q Q' : Model E -> Prop) (m : py E A) :
  (forall s, P' s -> P s) -> (forall s, Q s -> Q' s) ->
  hoare P m Q -> hoare P' m Q'.
Proof.
  intros HP HQ H self Hs.
  destruct (H self (HP self Hs)) as [v [s1 [l1 [E1 Q1]]]].
  exists v, s1, l1. auto.
Qed.

Ltac frame_tac S Kk :=
  apply (hoare_frame E J j engine_sound Kk S);
  [ unfold_methods; runs_tac engine_sound
  | intros k; destruct k as [|[]|[]]; cbv; intros; congruence ].

(** A step on a crewed model runs to its end. *)
Lemma mpm_step_runs_through (t_start t : Q) :
  hoare (crewed J j no_attr) (mpm_step E t_start t) (crewed J j diagnosed).
Proof.
  unfold mpm_step.
  do 7 (eapply hoare_bind; [frame_tac no_attr (written true)|intros _]).
  eapply hoare_bind; [apply velocity_gradient_establishes|intros _].
  do 2 (eapply hoare_bind; [frame_tac only_grad_u undiagnosed|intros _]).
  eapply hoare_bind; [apply stress_establishes|intros _].
  do 4 (eapply hoare_bind; [frame_tac diagnosed undiagnosed|intros _]).
  do 3 (eapply hoare_bind;
        [apply debug_print_passes; reflexivity|intros _]).
  frame_tac diagnosed undiagnosed.
Qed.

End Establish.

Section RunsThrough.

Variable E : Engine.
Variable J : cpp_state E -> Prop.
Variable j : nat.
Hypothesis engine_sound : sound_engine E J j.

Lemma mpm_iteration_runs_through (t_start t : Q) :
  hoare (crewed J j no_attr) (mpm_iteration E t_start t)
        (crewed J j no_attr).
Proof.
  unfold mpm_iteration.
  eapply hoare_bind; [apply (mpm_step_runs_through E J j engine_sound)|].
  intros _ self H. unfold bind, get_self, emit, ret.
  eexists. exists self. eexists. split; [reflexivity|].
  exact (crewed_weaken E J j _ self H).
Qed.

Lemma mpm_while_never_raises (t_start t_end : Q) (fuel : nat) :
  forall (t : Q) (self : Model E),
    crewed J j no_attr self ->
    raised (mpm_while E fuel t_start t_end t self) = false.
Proof.
  induction fuel as [|fuel IH]; intros t self H; cbn [mpm_while].
  - reflexivity.
  - destruct (Qle_bool t t_end); [|reflexivity].
    unfold bind.
    destruct (mpm_iteration_runs_through t_start t self H)
      as [t' [s1 [l1 [E1 H1]]]].
    rewrite E1. specialize (IH t' s1 H1).
    destruct (mpm_while E fuel t_start t_end t' s1); simpl in *; congruence.
Qed.


End RunsThrough.

(** The modelled engine keeps its particles: no stage changes how many a
    material has. *)
Lemma for_particles_length (f : nat -> nat -> Particle -> Particle)
      (ps : list (list Particle)) (j : nat) :
  List.length (nth j (for_particles f ps) [])
  = List.length (nth j ps []).
Proof.
  unfold for_particles. generalize 0 at 2. revert j.
  induction ps as [|p ps IH]; intros j a; simpl.
  - destruct j; reflexivity.
  - destruct j as [|j]; simpl.
    + rewrite length_map, length_combine, length_seq. apply Nat.min_id.
    + apply IH.
Qed.

Lemma full_house_sound : sound_engine E0 full_house 0.
Proof.
  split.
  - intros c s H. eexists. split; [reflexivity|].
    unfold full_house, particles_of in *.
    destruct c; simpl; try exact H; rewrite for_particles_length; exact H.
  - intros s H. unfold full_house in H. simpl. rewrite H. lia.
Qed.

